(** * CHATBOT backend: conversation store, orchestrator, gap analysis, validators

    A shallow embedding of the Python sources under [src/app] and the
    properties of the specification that concern them.

    Conventions of the embedding.
    - A Python [str] is a Rocq [string], one [ascii] per character, so the
      model covers text whose code points are below 256.  [len] is
      [String.length]; [x in s] on strings is [py_in]; [s.count(c)] is
      [py_count]; [s.lower()] is [py_lower].
    - A [datetime] is an integer instant ([Z]).
    - A Python exception is its message ([str(e)]); code that can raise
      returns a [Result].
    - The services keep state in objects and in the document store; that
      state is the record [World], threaded through the monad [M]. *)

From Stdlib Require Import List String Ascii ZArith Lia Bool Arith PeanoNat.
From Stdlib Require Import Sorting.Sorted Sorting.Permutation QArith.
From Stdlib Require Import DecimalString.
Import ListNotations.

Local Open Scope string_scope.
Local Open Scope Z_scope.

(* ================================================================== *)
(** * Python strings *)

Module PyStr.

(** The line feed character, ["\n"]. *)
Definition LF : ascii := ascii_of_nat 10.

(** [sub in s]: [sub] occurs in [s] as a contiguous substring. *)
Fixpoint py_in (sub s : string) : bool :=
  String.prefix sub s ||
  match s with
  | EmptyString => false
  | String _ s' => py_in sub s'
  end.

(** [s.count(c)] for a one-character needle [c]. *)
Fixpoint py_count (c : ascii) (s : string) : nat :=
  match s with
  | EmptyString => O
  | String a s' => ((if Ascii.eqb a c then 1 else 0) + py_count c s')%nat
  end.

(** [str.lower] on one character: the upper-case letters below code
    point 256 are 65..90 and 192..222 without 215; each maps to the
    code point 32 above it. *)
Definition lower_char (a : ascii) : ascii :=
  let n := nat_of_ascii a in
  if ((65 <=? n) && (n <=? 90) ||
      (192 <=? n) && (n <=? 222) && negb (n =? 215))%nat
  then ascii_of_nat (n + 32) else a.

Fixpoint py_lower (s : string) : string :=
  match s with
  | EmptyString => EmptyString
  | String a s' => String (lower_char a) (py_lower s')
  end.

(** [w + "\n"] *)
Definition ends_with_LF (w : string) : string := w ++ String LF "".

(** Truthiness of a string: [not s] holds exactly for the empty one. *)
Definition py_not (s : string) : bool :=
  match s with EmptyString => true | _ => false end.

End PyStr.
Import PyStr.

(* ================================================================== *)
(** * [app/utils/validators.py] *)

Module Re.

(** The fragment of Python's [re] syntax that the validators use. *)
Inductive atom : Type :=
| Bol                               (* ^ *)
| Eol                               (* $ *)
| PlusClass (cls : ascii -> bool).  (* [...]+ , greedy *)

Definition pattern := list atom.

(** Without [re.MULTILINE], [$] matches at the end of the string and
    just before a line feed that ends the string. *)
Definition at_eol (s : string) : bool :=
  match s with
  | EmptyString => true
  | String c EmptyString => Ascii.eqb c LF
  | _ => false
  end.

(** Backtracking matcher: does [p] match some prefix of [s]?
    [at_start] tells whether the current position is position 0. *)
Fixpoint match_here (p : pattern) : bool -> string -> bool :=
  match p with
  | [] => fun _ _ => true
  | Bol :: p' => fun at_start s => at_start && match_here p' at_start s
  | Eol :: p' => fun at_start s => at_eol s && match_here p' at_start s
  | PlusClass cls :: p' => fun _ s =>
      (fix loop (s : string) : bool :=
         match s with
         | EmptyString => false
         | String c s' => cls c && (loop s' || match_here p' false s')
         end) s
  end.

(** [re.match(p, s)], read as a truth value. *)
Definition re_match (p : pattern) (s : string) : bool := match_here p true s.

End Re.

Module Validators.
Import Re.

Definition in_range (lo hi : nat) (c : ascii) : bool :=
  let n := nat_of_ascii c in ((lo <=? n) && (n <=? hi))%nat.

(** The character class [[a-zA-Z0-9_-]]. *)
Definition id_char (c : ascii) : bool :=
  in_range 97 122 c || in_range 65 90 c || in_range 48 57 c
  || Ascii.eqb c "_"%char || Ascii.eqb c "-"%char.

(** [r'^[a-zA-Z0-9_-]+$'] *)
Definition pattern : Re.pattern := [Bol; PlusClass id_char; Eol].

Definition validate_conversation_id (conversation_id : string)
  : bool * option string :=
  if py_not conversation_id then
    (false, Some "Conversation ID cannot be empty")
  else if negb (re_match pattern conversation_id) then
    (false, Some "Conversation ID contains invalid characters")
  else if (100 <? String.length conversation_id)%nat then
    (false, Some "Conversation ID is too long")
  else (true, None).

(** The format as the specification words it: a non-empty string of at
    most 100 characters, each of them a letter, a digit, an underscore
    or a hyphen. *)
Fixpoint all_id_chars (s : string) : bool :=
  match s with
  | EmptyString => true
  | String c s' => id_char c && all_id_chars s'
  end.

Definition id_format_ok (s : string) : bool :=
  negb (py_not s) && all_id_chars s && (String.length s <=? 100)%nat.

End Validators.

(* ================================================================== *)
(** * Results, the world, and the monad of the services *)

(** Outcome of a call: a value, or a raised [Exception] with its text. *)
Inductive Result (A : Type) : Type :=
| Ok (a : A)
| Raise (e : string).
Arguments Ok {A} a.
Arguments Raise {A} e.

(** [app/models/chat.py] *)
Module ChatMessage.

Record t : Type := mk {
  role : string;
  content : string;
  timestamp : option Z
}.

(** The [role] validator. *)
Definition validate_role (v : string) : bool :=
  String.eqb v "user" || String.eqb v "assistant".

(** [ChatMessage(role=..., content=..., timestamp=...)]: pydantic checks
    the role validator and [min_length=1] on [content], and raises a
    [ValidationError] when either fails. *)
Definition new (role content : string) (timestamp : option Z) : Result t :=
  if validate_role role && (1 <=? String.length content)%nat
  then Ok (mk role content timestamp)
  else Raise "validation error for ChatMessage".

End ChatMessage.

Module ConversationHistory.
Record t : Type := mk {
  conversation_id : string;
  messages : list ChatMessage.t;
  created_at : option Z;
  updated_at : option Z;
  message_count : nat
}.
End ConversationHistory.

Module ConversationSummary.
Record t : Type := mk {
  conversation_id : string;
  first_message : option string;
  last_message : option string;
  message_count : nat;
  created_at : option Z;
  updated_at : option Z
}.
End ConversationSummary.

(** One stored exchange: the [message_doc] of [_store_message]. *)
Module Doc.
Record t : Type := mk {
  conversation_id : string;
  user_message : string;
  assistant_message : string;
  timestamp : Z;
  created_at : Z;
  message_length : nat
}.
End Doc.

(** Calls that leave the process and can fail there. *)
Inductive Op : Type :=
| OpConnect       (* AsyncIOMotorClient(...) and the ping *)
| OpInsert        (* collection.insert_one *)
| OpFind          (* iterating collection.find(...).sort(...).limit(...) *)
| OpCount         (* collection.count_documents *)
| OpAggregate     (* iterating collection.aggregate *)
| OpDelete        (* collection.delete_many *)
| OpOpenAIInit    (* get_openai_service() *)
| OpGeminiInit.   (* get_gemini_service() *)

(** What the outside decides.  Every outside call reads the oracle at the
    current [tick] and advances it, so each call of a run can succeed or
    fail on its own. *)
Record Env : Type := {
  fault : nat -> Op -> option string;
  utc_now : nat -> Z;
  uuid_hex16 : nat -> string;
  ai_generate : nat -> string -> option (list (string * string)) -> Result string;
  AI_PROVIDER : string
}.

Record World : Type := mkWorld {
  database : bool;                  (* DatabaseService.database is not None *)
  conversations_collection : bool;  (* ChatService.conversations_collection is not None *)
  docs : list Doc.t;                (* the "conversations" collection, in insertion order *)
  tick : nat;
  db_service : bool;                (* the global _db_service is not None *)
  chat_service : bool               (* the global _chat_service is not None *)
}.

Definition M (A : Type) : Type := World -> Result A * World.

Definition ret {A} (a : A) : M A := fun w => (Ok a, w).

Definition raise {A} (e : string) : M A := fun w => (Raise e, w).

Definition bind {A B} (m : M A) (k : A -> M B) : M B :=
  fun w => match m w with
           | (Ok a, w') => k a w'
           | (Raise e, w') => (Raise e, w')
           end.

(** [try: m  except Exception as e: h e] *)
Definition try_except {A} (m : M A) (h : string -> M A) : M A :=
  fun w => match m w with
           | (Ok a, w') => (Ok a, w')
           | (Raise e, w') => h e w'
           end.

Notation "x <- m ;; k" := (bind m (fun x => k))
  (at level 61, m at next level, right associativity).
Notation "m ;;; k" := (bind m (fun _ => k))
  (at level 61, right associativity).

Definition advance (w : World) : World :=
  mkWorld (database w) (conversations_collection w) (docs w) (S (tick w))
          (db_service w) (chat_service w).

Definition set_database (b : bool) : M unit := fun w =>
  (Ok tt, mkWorld b (conversations_collection w) (docs w) (tick w)
                  (db_service w) (chat_service w)).

Definition set_conversations_collection (b : bool) : M unit := fun w =>
  (Ok tt, mkWorld (database w) b (docs w) (tick w)
                  (db_service w) (chat_service w)).

Definition set_docs (ds : list Doc.t) : M unit := fun w =>
  (Ok tt, mkWorld (database w) (conversations_collection w) ds (tick w)
                  (db_service w) (chat_service w)).

Definition set_db_service (b : bool) : M unit := fun w =>
  (Ok tt, mkWorld (database w) (conversations_collection w) (docs w) (tick w)
                  b (chat_service w)).

Definition set_chat_service (b : bool) : M unit := fun w =>
  (Ok tt, mkWorld (database w) (conversations_collection w) (docs w) (tick w)
                  (db_service w) b).

Definition get_docs : M (list Doc.t) := fun w => (Ok (docs w), w).

Section WithEnv.
Variable E : Env.

(** An outside call: it raises when the oracle says so. *)
Definition ext (op : Op) : M unit := fun w =>
  (match fault E (tick w) op with
   | Some e => Raise e
   | None => Ok tt
   end, advance w).

(** [app/utils/helpers.py] *)
Definition get_utc_now : M Z := fun w => (Ok (utc_now E (tick w)), advance w).

Definition generate_conversation_id : M string := fun w =>
  (Ok ("conv_" ++ uuid_hex16 E (tick w)), advance w).

(** [ai_service.generate_response(message, history)] *)
Definition generate_response (message : string)
  (history : option (list (string * string))) : M string := fun w =>
  (ai_generate E (tick w) message history, advance w).

End WithEnv.

(** An environment in which no outside call fails. *)
Definition no_faults (E : Env) : Prop := forall n op, fault E n op = None.

(* ================================================================== *)
(** * The document store: what the queries of the services compute *)

Module Mongo.

(** Stable insertion sort, ascending in [key]: documents with equal keys
    keep their insertion order. *)
Fixpoint insert_by {A} (key : A -> Z) (x : A) (l : list A) : list A :=
  match l with
  | [] => [x]
  | y :: l' => if key x <=? key y then x :: l else y :: insert_by key x l'
  end.

Fixpoint sort_by {A} (key : A -> Z) (l : list A) : list A :=
  match l with
  | [] => []
  | x :: l' => insert_by key x (sort_by key l')
  end.

(** A list is in non-decreasing order of [key]. *)
Definition ascending {A} (key : A -> Z) (l : list A) : Prop :=
  StronglySorted (fun a b => key a <= key b) l.

(** The filter [{"conversation_id": cid}]. *)
Definition matches (cid : string) (d : Doc.t) : bool :=
  String.eqb (Doc.conversation_id d) cid.

(** [cursor.limit(n)]: 0 means no limit; otherwise at most [|n|]
    documents. *)
Definition cursor_limit {A} (n : Z) (l : list A) : list A :=
  if n =? 0 then l else firstn (Z.abs_nat n) l.

(** [find({"conversation_id": cid}).sort("timestamp", 1).limit(limit)] *)
Definition find_sorted (cid : string) (limit : Z) (ds : list Doc.t)
  : list Doc.t :=
  cursor_limit limit (sort_by Doc.timestamp (filter (matches cid) ds)).

(** A document that leaves the [$group] stage. *)
Record group : Type := mkGroup {
  _id : string;
  first_message : string;
  last_message : string;
  message_count : nat;
  created_at : Z;
  updated_at : Z
}.

(** The accumulators of the [$group] stage: [$first] and [$last] of
    [user_message], [$sum] of 1, [$min] of [created_at] and [$max] of
    [timestamp]. *)
Definition group_start (d : Doc.t) : group :=
  mkGroup (Doc.conversation_id d) (Doc.user_message d) (Doc.user_message d)
          1 (Doc.created_at d) (Doc.timestamp d).

Definition group_step (g : group) (d : Doc.t) : group :=
  mkGroup (_id g) (first_message g) (Doc.user_message d)
          (S (message_count g))
          (Z.min (created_at g) (Doc.created_at d))
          (Z.max (updated_at g) (Doc.timestamp d)).

Fixpoint group_add (d : Doc.t) (gs : list group) : list group :=
  match gs with
  | [] => [group_start d]
  | g :: gs' =>
      if String.eqb (_id g) (Doc.conversation_id d)
      then group_step g d :: gs'
      else g :: group_add d gs'
  end.

(** [$group] by [conversation_id]; the groups come out in the order in
    which their first document is met. *)
Definition group_by_conversation (ds : list Doc.t) : list group :=
  fold_left (fun gs d => group_add d gs) ds [].

(** The pipeline of [get_conversation_summaries] up to [$limit]:
    [$sort timestamp 1], [$group], [$sort updated_at -1]. *)
Definition sorted_groups (ds : list Doc.t) : list group :=
  sort_by (fun g => - updated_at g)
          (group_by_conversation (sort_by Doc.timestamp ds)).

(** The whole pipeline; [$limit] refuses a limit that is not positive. *)
Definition aggregate (limit : Z) (ds : list Doc.t) : Result (list group) :=
  if limit <=? 0 then Raise "the limit must be positive"
  else Ok (firstn (Z.to_nat limit) (sorted_groups ds)).

End Mongo.

(* ================================================================== *)
(** * [app/services/database.py] *)

Module DatabaseService.
Section S.
Variable E : Env.

Definition connect : M unit := fun w =>
  if database w then ret tt w
  else (ext E OpConnect ;;; set_database true) w.

(** [get_database()]: [true] stands for a handle, [false] for [None]. *)
Definition get_database : M bool := fun w => (Ok (database w), w).

Definition get_collection (name : string) : M unit := fun w =>
  if database w then ret tt w else raise "Database not connected" w.

(** The module-level [get_database_service()]. *)
Definition get_database_service : M unit := fun w =>
  if db_service w then ret tt w
  else (set_db_service true ;;; connect) w.

End S.
End DatabaseService.

(* ================================================================== *)
(** * [app/services/chat.py] *)

Module ChatService.

(** The dictionary that [send_message] returns. *)
Record SendResult : Type := mkSendResult {
  response : string;
  conversation_id : string;
  timestamp : Z
}.

(** The state of the loop of [get_conversation_history]:
    [messages], [created_at], [updated_at]. *)
Definition history_acc : Type :=
  (list ChatMessage.t * option Z * option Z)%type.

(** One turn of [async for doc in cursor]. *)
Definition history_step (acc : history_acc) (doc : Doc.t)
  : Result history_acc :=
  let '(messages, created_at, updated_at) := acc in
  let created_at :=
    match created_at with
    | None => Some (Doc.created_at doc)
    | Some _ => created_at
    end in
  match ChatMessage.new "user" (Doc.user_message doc)
                        (Some (Doc.timestamp doc)) with
  | Raise e => Raise e
  | Ok m_user =>
      match ChatMessage.new "assistant" (Doc.assistant_message doc)
                            (Some (Doc.timestamp doc)) with
      | Raise e => Raise e
      | Ok m_assistant =>
          Ok ((messages ++ [m_user; m_assistant])%list, created_at,
              Some (Doc.timestamp doc))
      end
  end.

Fixpoint history_loop (cursor : list Doc.t) (acc : history_acc)
  : Result history_acc :=
  match cursor with
  | [] => Ok acc
  | doc :: cursor' =>
      match history_step acc doc with
      | Ok acc' => history_loop cursor' acc'
      | Raise e => Raise e
      end
  end.

(** [ConversationSummary(...)] from one document of the aggregation. *)
Definition summary_of_group (g : Mongo.group) : ConversationSummary.t :=
  ConversationSummary.mk (Mongo._id g)
    (Some (Mongo.first_message g)) (Some (Mongo.last_message g))
    (Mongo.message_count g)
    (Some (Mongo.created_at g)) (Some (Mongo.updated_at g)).

(** The loop over the aggregation: a document whose [_id] is falsy is
    skipped. *)
Definition summaries_loop (gs : list Mongo.group)
  : list ConversationSummary.t :=
  flat_map (fun g => if py_not (Mongo._id g) then []
                     else [summary_of_group g]) gs.

(** The test on [str(e)] in the handlers of [send_message] and
    [get_conversation_summaries]. *)
Definition connection_issue (error_str : string) : bool :=
  py_in "SSL" error_str
  || py_in "connection" (py_lower error_str)
  || py_in "timeout" (py_lower error_str).

Definition lift {A} (r : Result A) : M A := fun w => (r, w).

Section S.
Variable E : Env.

Definition _get_collection : M unit := fun w =>
  if conversations_collection w then ret tt w
  else
    (db <- DatabaseService.get_database ;;
     (if db : bool then ret tt
      else
        DatabaseService.connect E ;;;
        db <- DatabaseService.get_database ;;
        if db : bool then ret tt
        else raise "Database connection returned None") ;;;
     DatabaseService.get_collection "conversations" ;;;
     set_conversations_collection true) w.

Definition insert_one (doc : Doc.t) : M unit :=
  ext E OpInsert ;;;
  ds <- get_docs ;;
  set_docs (ds ++ [doc])%list.

Definition _store_message (conversation_id user_message assistant_message
  : string) : M unit :=
  db <- DatabaseService.get_database ;;
  db <- (if db : bool then ret true
         else try_except
                (DatabaseService.connect E ;;; DatabaseService.get_database)
                (fun conn_error =>
                   raise ("Database connection failed: " ++ conn_error))) ;;
  (if db : bool then ret tt
   else raise "Database connection is None after connect attempt") ;;;
  _get_collection ;;;
  now <- get_utc_now E ;;
  insert_one
    (Doc.mk conversation_id user_message assistant_message now now
            (String.length user_message + String.length assistant_message)).

(** [if not conversation_id: conversation_id = generate_conversation_id()] *)
Definition resolve_conversation_id (conversation_id : option string)
  : M string :=
  match conversation_id with
  | None => generate_conversation_id E
  | Some c => if py_not c then generate_conversation_id E else ret c
  end.

(** The [history] handed to the provider. *)
Definition history_of (chat_history : option (list ChatMessage.t))
  : option (list (string * string)) :=
  match chat_history with
  | None | Some [] => None
  | Some h =>
      Some (map (fun msg => (ChatMessage.role msg, ChatMessage.content msg)) h)
  end.

(** The handler of the storage failure only writes to the log, so its
    branches agree. *)
Definition send_message (message : string) (conversation_id : option string)
  (chat_history : option (list ChatMessage.t)) : M SendResult :=
  conversation_id <- resolve_conversation_id conversation_id ;;
  let history := history_of chat_history in
  response_text <- generate_response E message history ;;
  try_except (_store_message conversation_id message response_text)
             (fun e => if connection_issue e then ret tt else ret tt) ;;;
  now <- get_utc_now E ;;
  ret (mkSendResult response_text conversation_id now).

Definition find (conversation_id : string) (limit : Z) : M (list Doc.t) :=
  ext E OpFind ;;;
  ds <- get_docs ;;
  ret (Mongo.find_sorted conversation_id limit ds).

Definition get_conversation_history (conversation_id : string) (limit : Z)
  : M ConversationHistory.t :=
  db <- DatabaseService.get_database ;;
  (if db : bool then ret tt else DatabaseService.connect E) ;;;
  _get_collection ;;;
  cursor <- find conversation_id limit ;;
  acc <- lift (history_loop cursor ([], None, None)) ;;
  let '(messages, created_at, updated_at) := acc in
  ret (ConversationHistory.mk conversation_id messages created_at updated_at
                              (List.length messages)).

Definition count_documents : M nat :=
  ext E OpCount ;;;
  ds <- get_docs ;;
  ret (List.length ds).

Definition aggregate (limit : Z) : M (list Mongo.group) :=
  ext E OpAggregate ;;;
  ds <- get_docs ;;
  lift (Mongo.aggregate limit ds).

(** The [try] block of [get_conversation_summaries]. *)
Definition summaries_body (limit : Z) : M (list ConversationSummary.t) :=
  db <- DatabaseService.get_database ;;
  fun w =>
    let after_connect : Result bool * World :=
      if db : bool then (Ok true, w)
      else (DatabaseService.connect E ;;; DatabaseService.get_database) w in
    match after_connect with
    | (Raise conn_error, w1) => (Ok [], w1)
    | (Ok false, w1) => (Ok [], w1)
    | (Ok true, w1) =>
        (_get_collection ;;;
         count <- count_documents ;;
         if (count =? 0)%nat then ret []
         else
           gs <- aggregate limit ;;
           ret (summaries_loop gs)) w1
    end.

Definition get_conversation_summaries (limit : Z)
  : M (list ConversationSummary.t) :=
  try_except (summaries_body limit)
             (fun e => if connection_issue e then ret [] else ret []).

Definition delete_many (conversation_id : string) : M nat :=
  ext E OpDelete ;;;
  ds <- get_docs ;;
  set_docs (filter (fun d => negb (Mongo.matches conversation_id d)) ds) ;;;
  ret (List.length (filter (Mongo.matches conversation_id) ds)).

Definition delete_conversation (conversation_id : string) : M bool :=
  db <- DatabaseService.get_database ;;
  (if db : bool then ret tt else DatabaseService.connect E) ;;;
  _get_collection ;;;
  deleted_count <- delete_many conversation_id ;;
  ret (0 <? deleted_count)%nat.

(** The module-level [get_chat_service()]. *)
Definition get_chat_service : M unit := fun w =>
  if chat_service w then ret tt w
  else
    (DatabaseService.get_database_service E ;;;
     (if String.eqb (py_lower (AI_PROVIDER E)) "openai"
      then try_except (ext E OpOpenAIInit) (fun _ => ext E OpGeminiInit)
      else try_except (ext E OpGeminiInit) (fun _ => ext E OpOpenAIInit)) ;;;
     set_conversations_collection false ;;;
     set_chat_service true) w.

End S.
End ChatService.

(* ================================================================== *)
(** * Reading the store back: the vocabulary of the specification *)

Module Reading.

(** The two role-tagged messages that the specification says an exchange
    expands to: the user's text, then the assistant's. *)
Definition two_messages (d : Doc.t) : list ChatMessage.t :=
  [ChatMessage.mk "user" (Doc.user_message d) (Some (Doc.timestamp d));
   ChatMessage.mk "assistant" (Doc.assistant_message d)
                  (Some (Doc.timestamp d))].

(** Both texts of the exchange are non-empty. *)
Definition texts_present (d : Doc.t) : bool :=
  negb (py_not (Doc.user_message d))
  && negb (py_not (Doc.assistant_message d)).

(** The exchanges of a conversation, and their chronological order
    (exchanges with equal timestamps stay in insertion order). *)
Definition exchanges_of (cid : string) (ds : list Doc.t) : list Doc.t :=
  filter (Mongo.matches cid) ds.

Definition chronological (ds : list Doc.t) : list Doc.t :=
  Mongo.sort_by Doc.timestamp ds.

(** Least and greatest value of [key] over the non-empty list
    [d0 :: rest]. *)
Definition minimum (key : Doc.t -> Z) (d0 : Doc.t) (rest : list Doc.t) : Z :=
  fold_left Z.min (map key rest) (key d0).

Definition maximum (key : Doc.t -> Z) (d0 : Doc.t) (rest : list Doc.t) : Z :=
  fold_left Z.max (map key rest) (key d0).

(** The summary of a conversation in the words of the specification:
    first and last user message in chronological order, number of
    exchanges, least [created_at], greatest [timestamp].  There is none
    for an id without exchanges. *)
Definition summary_of (ds : list Doc.t) (cid : string)
  : option ConversationSummary.t :=
  match chronological (exchanges_of cid ds) with
  | [] => None
  | d0 :: rest =>
      Some (ConversationSummary.mk cid
              (Some (Doc.user_message d0))
              (Some (Doc.user_message (last rest d0)))
              (List.length (d0 :: rest))
              (Some (minimum Doc.created_at d0 rest))
              (Some (maximum Doc.timestamp d0 rest)))
  end.

(** The same reduction as a document of the [$group] stage. *)
Definition reduce_group (cid : string) (d0 : Doc.t) (rest : list Doc.t)
  : Mongo.group :=
  Mongo.mkGroup cid (Doc.user_message d0) (Doc.user_message (last rest d0))
                (List.length (d0 :: rest))
                (minimum Doc.created_at d0 rest)
                (maximum Doc.timestamp d0 rest).

Definition expected_group (ds : list Doc.t) (cid : string)
  : option Mongo.group :=
  match exchanges_of cid ds with
  | [] => None
  | d0 :: rest => Some (reduce_group cid d0 rest)
  end.

Definition find_group (cid : string) (gs : list Mongo.group)
  : option Mongo.group :=
  find (fun g => String.eqb (Mongo._id g) cid) gs.

(** [a] comes before [b] when sorting by [updated_at] descending. *)
Definition newer_first (a b : ConversationSummary.t) : Prop :=
  match ConversationSummary.updated_at a, ConversationSummary.updated_at b with
  | Some x, Some y => y <= x
  | _, _ => False
  end.

(** A client that appends the exchanges [(user, assistant)] of [exs], in
    order, to the conversation [cid]. *)
Fixpoint store_all (E : Env) (cid : string) (exs : list (string * string))
  : M unit :=
  match exs with
  | [] => ret tt
  | (u, a) :: exs' =>
      ChatService._store_message E cid u a ;;; store_all E cid exs'
  end.

End Reading.

(* ================================================================== *)
(** * [app/services/gap_analysis.py] *)

Module Gap.
Record t : Type := mk {
  type : string;
  severity : string;
  description : string;
  suggestion : string
}.
End Gap.

Module GapAnalysisService.

Record Metrics : Type := mkMetrics {
  total_messages : nat;
  user_messages : nat;
  ai_messages : nat;
  average_message_length : Q;
  questions_asked : nat;
  metrics_completeness_score : Z
}.

Record SeverityBreakdown : Type := mkSeverityBreakdown {
  high : nat;
  medium : nat;
  low : nat
}.

(** The dictionary that [analyze_conversation] returns; the keys that
    only some of its three shapes carry are optional. *)
Record Analysis : Type := mkAnalysis {
  conversation_id : string;
  status : string;
  gaps : list Gap.t;
  suggestions : list string;
  completeness_score : Z;
  metrics : option Metrics;
  gap_count : option nat;
  severity_breakdown : option SeverityBreakdown;
  error : option string
}.

Definition missing_context : Gap.t :=
  Gap.mk "missing_context" "medium"
    "Conversation lacks sufficient context"
    "Provide more background information or ask follow-up questions".

Definition no_followup : Gap.t :=
  Gap.mk "no_followup" "low"
    "Single exchange without follow-up"
    "Consider asking follow-up questions to deepen the conversation".

Definition short_responses : Gap.t :=
  Gap.mk "short_responses" "low"
    "Many responses are quite brief"
    "Ask for more detailed explanations or examples".

Definition missing_details : Gap.t :=
  Gap.mk "missing_details" "medium"
    "Conversation may lack specific details"
    "Ask specific questions using 'how', 'why', 'what', or request examples".

Definition no_action_items : Gap.t :=
  Gap.mk "no_action_items" "low"
    "No clear action items or next steps identified"
    "Ask about next steps or actionable recommendations".

Definition unanswered_questions : Gap.t :=
  Gap.mk "unanswered_questions" "high"
    "More questions asked than answered"
    "Review responses to ensure all questions are addressed".

Definition detail_keywords : list string :=
  ["how"; "why"; "what"; "when"; "where"; "example"; "specific"].

Definition action_keywords : list string :=
  ["next"; "step"; "action"; "do"; "should"; "recommend"].

(** [any(keyword in msg.content.lower() for msg in msgs for keyword in keywords)] *)
Definition has_keyword (keywords : list string) (msgs : list ChatMessage.t)
  : bool :=
  existsb (fun msg =>
             existsb (fun keyword =>
                        py_in keyword (py_lower (ChatMessage.content msg)))
                     keywords) msgs.

Definition with_role (r : string) (msgs : list ChatMessage.t)
  : list ChatMessage.t :=
  filter (fun msg => String.eqb (ChatMessage.role msg) r) msgs.

(** [sum(msg.content.count("?") for msg in user_messages)] *)
Definition question_marks (user_messages : list ChatMessage.t) : nat :=
  list_sum (map (fun msg => py_count "?"%char (ChatMessage.content msg))
                user_messages).

(** The running pair [(gaps, completeness_score)] of the rules. *)
Definition rule_state : Type := (list Gap.t * Z)%type.

Definition trigger (cond : bool) (g : Gap.t) (penalty : Z) (st : rule_state)
  : rule_state :=
  if cond then ((fst st ++ [g])%list, snd st - penalty) else st.

Section Rules.
Variables user_messages ai_messages : list ChatMessage.t.

(** Gap 1: missing context. *)
Definition cond1 : bool := (List.length user_messages <? 2)%nat.
Definition gap1 : rule_state -> rule_state :=
  trigger cond1 missing_context 20.

(** Gap 2: no follow-up questions. *)
Definition cond2 : bool :=
  (List.length user_messages =? 1)%nat && (List.length ai_messages =? 1)%nat.
Definition gap2 : rule_state -> rule_state :=
  trigger cond2 no_followup 10.

(** Gap 3: short responses.  [len(short_responses) > len(ai_messages) * 0.5]
    compares an integer with half of an integer, which is
    [len(ai_messages) < 2 * len(short_responses)]. *)
Definition short_list : list ChatMessage.t :=
  filter (fun msg => (String.length (ChatMessage.content msg) <? 50)%nat)
         ai_messages.
Definition cond3 : bool :=
  (List.length ai_messages <? 2 * List.length short_list)%nat.
Definition gap3 : rule_state -> rule_state :=
  trigger cond3 short_responses 15.

(** Gap 4: missing specific details. *)
Definition cond4 : bool :=
  negb (has_keyword detail_keywords user_messages)
  && (2 <? List.length user_messages)%nat.
Definition gap4 : rule_state -> rule_state :=
  trigger cond4 missing_details 15.

(** Gap 5: no action items or next steps. *)
Definition cond5 : bool :=
  negb (has_keyword action_keywords user_messages)
  && (3 <? List.length user_messages)%nat.
Definition gap5 : rule_state -> rule_state :=
  trigger cond5 no_action_items 10.

(** Gap 6: unanswered questions. *)
Definition cond6 : bool :=
  (List.length ai_messages <? question_marks user_messages)%nat.
Definition gap6 : rule_state -> rule_state :=
  trigger cond6 unanswered_questions 25.

(** The state before the sixth rule, and after all six. *)
Definition rules_1_to_5 : rule_state :=
  gap5 (gap4 (gap3 (gap2 (gap1 ([], 100))))).

Definition run_rules : rule_state := gap6 rules_1_to_5.

End Rules.

Definition count_severity (s : string) (gaps : list Gap.t) : nat :=
  List.length (filter (fun g => String.eqb (Gap.severity g) s) gaps).

(** [sum(len(msg.content) for msg in messages) / len(messages)]; Python
    rounds this quotient to a float. *)
Definition average_length (messages : list ChatMessage.t) : Q :=
  match messages with
  | [] => 0%Q
  | _ =>
      Qmake (Z.of_nat (list_sum (map (fun msg =>
                                        String.length (ChatMessage.content msg))
                                     messages)))
            (Pos.of_nat (List.length messages))
  end.

(** The body of [analyze_conversation] once a non-empty history is there. *)
Definition analyze_messages (conversation_id : string)
  (messages : list ChatMessage.t) : Analysis :=
  let user_messages := with_role "user" messages in
  let ai_messages := with_role "assistant" messages in
  let '(gaps, completeness_score) := run_rules user_messages ai_messages in
  let suggestions :=
    match gaps with
    | [] => (* the check mark U+2705 lies outside the modelled range and is
               kept as its three UTF-8 bytes *)
            [String (ascii_of_nat 226) (String (ascii_of_nat 156)
              (String (ascii_of_nat 133)
                 " Conversation appears complete and well-structured"))]
    | _ => map Gap.suggestion gaps
    end in
  let metrics :=
    mkMetrics (List.length messages) (List.length user_messages)
              (List.length ai_messages) (average_length messages)
              (question_marks user_messages)
              (Z.max 0 completeness_score) in
  mkAnalysis conversation_id "analyzed" gaps suggestions
             (metrics_completeness_score metrics) (Some metrics)
             (Some (List.length gaps))
             (Some (mkSeverityBreakdown (count_severity "high" gaps)
                                        (count_severity "medium" gaps)
                                        (count_severity "low" gaps)))
             None.

Definition empty_analysis (conversation_id : string) : Analysis :=
  mkAnalysis conversation_id "empty" []
             ["Start a conversation to analyze gaps"] 0 None None None None.

Definition error_analysis (conversation_id e : string) : Analysis :=
  mkAnalysis conversation_id "error" [] [] 0 None None None (Some e).

Section S.
Variable E : Env.

Definition analyze_conversation (conversation_id : string) : M Analysis :=
  try_except
    (history <- ChatService.get_conversation_history E conversation_id 50 ;;
     match ConversationHistory.messages history with
     | [] => ret (empty_analysis conversation_id)
     | messages => ret (analyze_messages conversation_id messages)
     end)
    (fun e => ret (error_analysis conversation_id e)).

End S.
End GapAnalysisService.

(* ================================================================== *)
(** * [app/routes/chat.py] *)

Module Routes.

(** What a route hands to the framework: a JSON response, or a raised
    [HTTPException]. *)
Inductive Http : Type :=
| JSONResponse (status_code : Z) (message : string)
| HTTPException (status_code : Z) (detail : string).

Definition status_of (h : Http) : Z :=
  match h with
  | JSONResponse c _ => c
  | HTTPException c _ => c
  end.

Section S.
Variable E : Env.

(** [DELETE /conversations/{conversation_id}] *)
Definition delete_conversation (conversation_id : string)
  : World -> Http * World := fun w =>
  match Validators.validate_conversation_id conversation_id with
  | (false, error_msg) =>
      (HTTPException 400 (match error_msg with Some m => m | None => "" end), w)
  | (true, _) =>
      match (ChatService.get_chat_service E ;;;
             ChatService.delete_conversation E conversation_id) w with
      | (Ok true, w') =>
          (JSONResponse 200 "Conversation deleted successfully", w')
      | (Ok false, w') => (HTTPException 404 "Conversation not found", w')
      | (Raise e, w') =>
          (HTTPException 500 ("Error deleting conversation: " ++ e), w')
      end
  end.

End S.
End Routes.

(* ================================================================== *)
(** * Concrete environments and stores used in the examples *)

Module Sample.

(** Nothing fails, the clock reads the tick, the provider echoes. *)
Definition env_ok : Env :=
  {| fault := fun _ _ => None;
     utc_now := fun n => Z.of_nat n;
     uuid_hex16 := fun _ => "0123456789abcdef";
     ai_generate := fun _ message _ => Ok ("echo: " ++ message);
     AI_PROVIDER := "gemini" |}.

(** The provider answers, every call to the store fails. *)
Definition env_store_down : Env :=
  {| fault := fun _ op =>
       match op with
       | OpOpenAIInit | OpGeminiInit => None
       | _ => Some "SSL handshake failed"
       end;
     utc_now := fun n => Z.of_nat n;
     uuid_hex16 := fun _ => "0123456789abcdef";
     ai_generate := fun _ message _ => Ok ("echo: " ++ message);
     AI_PROVIDER := "gemini" |}.

(** A process that has connected, with the given collection. *)
Definition connected (ds : list Doc.t) : World :=
  mkWorld true true ds 0 true true.

(** A process that has not connected yet. *)
Definition fresh (ds : list Doc.t) : World :=
  mkWorld false false ds 0 false false.

Definition exchange (cid u a : string) (t : Z) : Doc.t :=
  Doc.mk cid u a t t (String.length u + String.length a).

End Sample.

(* ================================================================== *)
(** * More of Python's [str] *)

Module PyText.

(** [c.isspace()], which is also what [\s] matches in a [str] pattern:
    below code point 256 these are 9..13, 28..32, 133 and 160. *)
Definition is_space (c : ascii) : bool :=
  let n := nat_of_ascii c in
  ((9 <=? n) && (n <=? 13) || (28 <=? n) && (n <=? 32)
   || (n =? 133) || (n =? 160))%nat.

Fixpoint lstrip (s : string) : string :=
  match s with
  | EmptyString => EmptyString
  | String c s' => if is_space c then lstrip s' else s
  end.

Fixpoint rstrip (s : string) : string :=
  match s with
  | EmptyString => EmptyString
  | String c s' =>
      match rstrip s' with
      | EmptyString => if is_space c then EmptyString else String c EmptyString
      | r => String c r
      end
  end.

(** [s.strip()] *)
Definition strip (s : string) : string := rstrip (lstrip s).

(** [re.sub(r'\s+', ' ', s)]: every maximal run of white space becomes
    one space.  [in_run] tells that the previous character was white
    space and has been replaced already. *)
Fixpoint collapse_spaces (in_run : bool) (s : string) : string :=
  match s with
  | EmptyString => EmptyString
  | String c s' =>
      if is_space c
      then if in_run then collapse_spaces true s'
           else String " "%char (collapse_spaces true s')
      else String c (collapse_spaces false s')
  end.

(** [s.replace(c, '')] for a one-character [c]. *)
Fixpoint remove_char (c : ascii) (s : string) : string :=
  match s with
  | EmptyString => EmptyString
  | String a s' =>
      if Ascii.eqb a c then remove_char c s' else String a (remove_char c s')
  end.

(** [s[:k]]: a negative [k] counts from the end. *)
Definition slice_to (k : Z) (s : string) : string :=
  let n := if k <? 0 then Z.max 0 (Z.of_nat (String.length s) + k) else k in
  String.substring 0 (Z.to_nat n) s.

(** [str(n)] for an integer. *)
Definition str_of_int (n : Z) : string :=
  NilZero.string_of_int (Z.to_int n).

(** The character with code point 0. *)
Definition NUL : ascii := ascii_of_nat 0.

End PyText.

(* ================================================================== *)
(** * [app/utils/validators.py] and [app/utils/helpers.py], the rest *)

Module InputValidators.
Import PyText.

Definition validate_message (message : string) (min_length max_length : Z)
  : bool * option string :=
  if py_not message then (false, Some "Message cannot be empty")
  else
    let message := strip message in
    if Z.of_nat (String.length message) <? min_length then
      (false, Some ("Message must be at least " ++ str_of_int min_length
                    ++ " characters"))
    else if max_length <? Z.of_nat (String.length message) then
      (false, Some ("Message must not exceed " ++ str_of_int max_length
                    ++ " characters"))
    else (true, None).

Definition sanitize_input (text : string) : string :=
  if py_not text then ""
  else remove_char NUL (collapse_spaces false (strip text)).

End InputValidators.

Module Helpers.
Import PyText.

Definition truncate_text (text : string) (max_length : Z) : string :=
  if Z.of_nat (String.length text) <=? max_length then text
  else slice_to (max_length - 3) text ++ "...".

(** A string of lower-case hexadecimal digits, as [uuid4().hex] is. *)
Definition is_hex_digit (c : ascii) : bool :=
  Validators.in_range 48 57 c || Validators.in_range 97 102 c.

Fixpoint all_hex (s : string) : bool :=
  match s with
  | EmptyString => true
  | String c s' => is_hex_digit c && all_hex s'
  end.

End Helpers.

(* ================================================================== *)
(** * [app/routes/chat.py]: [POST /chat] *)

Module ChatRoutes.

(** What the route hands to the framework: the [ChatResponse], or a
    raised [HTTPException]. *)
Inductive Reply : Type :=
| ChatResponse (response conversation_id : string) (timestamp : Z)
| HTTPException (status_code : Z) (detail : string).

Definition status_of (r : Reply) : Z :=
  match r with
  | ChatResponse _ _ _ => 200
  | HTTPException c _ => c
  end.

(** The test that maps a failure to status 429. *)
Definition quota_error (error_msg : string) : bool :=
  py_in "quota" (py_lower error_msg)
  || py_in "rate limit" (py_lower error_msg)
  || py_in "429" error_msg.

Definition detail_of (error_msg : option string) : string :=
  match error_msg with Some m => m | None => "" end.

Section S.
Variable E : Env.

Definition send_message (message : string) (conversation_id : option string)
  (chat_history : option (list ChatMessage.t)) : World -> Reply * World :=
  fun w =>
  match InputValidators.validate_message message 1 5000 with
  | (false, error_msg) => (HTTPException 400 (detail_of error_msg), w)
  | (true, _) =>
      let id_check :=
        match conversation_id with
        | None => (true, None)
        | Some c => if py_not c then (true, None)
                    else Validators.validate_conversation_id c
        end in
      match id_check with
      | (false, error_msg) => (HTTPException 400 (detail_of error_msg), w)
      | (true, _) =>
          match (ChatService.get_chat_service E ;;;
                 ChatService.send_message E message conversation_id
                                          chat_history) w with
          | (Ok result, w') =>
              (ChatResponse (ChatService.response result)
                            (ChatService.conversation_id result)
                            (ChatService.timestamp result), w')
          | (Raise error_msg, w') =>
              if quota_error error_msg
              then (HTTPException 429 error_msg, w')
              else (HTTPException 500
                      ("Error processing chat: " ++ error_msg), w')
          end
      end
  end.

End S.
End ChatRoutes.

(* ================================================================== *)
(** * Predicates on runs *)

Module Frame.

(** A computation that leaves the collection as it found it, whatever it
    returns or raises. *)
Definition keeps_docs {A} (m : M A) : Prop :=
  forall w, docs (snd (m w)) = docs w.

(** The invariant of the documents that [_store_message] writes. *)
Definition stamped (d : Doc.t) : Prop :=
  Doc.created_at d = Doc.timestamp d
  /\ Doc.message_length d
     = (String.length (Doc.user_message d)
        + String.length (Doc.assistant_message d))%nat.

(** A computation that appends one document satisfying [Q] when it
    returns, and leaves the collection as it found it when it raises. *)
Definition writes_one {A} (Q : Doc.t -> Prop) (m : M A) : Prop :=
  forall w,
    match m w with
    | (Ok _, w') => exists d, docs w' = (docs w ++ [d])%list /\ Q d
    | (Raise _, w') => docs w' = docs w
    end.

(** The exchange that [_store_message cid u a] writes. *)
Definition exchange_of (cid u a : string) (d : Doc.t) : Prop :=
  Doc.conversation_id d = cid /\ Doc.user_message d = u
  /\ Doc.assistant_message d = a /\ stamped d.

(** The collection after a run is the collection before it, or the
    collection before it without the exchanges of [cid]. *)
Definition same_or_without (cid : string) (before after : list Doc.t)
  : Prop :=
  after = before
  \/ after = filter (fun d => negb (Mongo.matches cid d)) before.

Definition may_delete {A} (cid : string) (m : M A) : Prop :=
  forall w, same_or_without cid (docs w) (docs (snd (m w))).

End Frame.

Module Shapes.

(** A string of white space only. *)
Fixpoint all_space (s : string) : bool :=
  match s with
  | EmptyString => true
  | String c s' => PyText.is_space c && all_space s'
  end.

(** [c] occurs in [s]. *)
Fixpoint occurs (c : ascii) (s : string) : Prop :=
  match s with
  | EmptyString => False
  | String a s' => a = c \/ occurs c s'
  end.

End Shapes.

(* ================================================================== *)
(** * [app/services/gap_analysis.py]: [analyze_all_conversations] *)

Module GapAnalysisAll.
Import GapAnalysisService.






Section S.
Variable E : Env.



End S.
End GapAnalysisAll.

(* ================================================================== *)
(** * Properties *)

(** Unfolding of the monad and of the store primitives. *)
Ltac run_m :=
  unfold ChatService.summaries_body, ChatService._get_collection,
    ChatService.count_documents, ChatService.aggregate,
    DatabaseService.connect, DatabaseService.get_database,
    DatabaseService.get_collection, get_docs, set_database,
    set_conversations_collection, ChatService.lift, ext, bind, ret, raise,
    advance;
  cbn [database conversations_collection docs tick db_service chat_service
       fst snd].

Ltac case_fault :=
  match goal with
  | |- context [fault ?E ?n ?o] => destruct (fault E n o); cbn
  end.

Section ValidatorFacts.
Import Re Validators.

Example validate_space_rejected :
  validate_conversation_id "abc 123"
  = (false, Some "Conversation ID contains invalid characters").
Proof. reflexivity. Qed.

Example validate_plain_accepted :
  validate_conversation_id "abc-123_ok" = (true, None).
Proof. reflexivity. Qed.

(** What [[a-zA-Z0-9_-]+$] matches from a given position: a non-empty run
    of class characters up to the end, or up to a closing line feed. *)
Lemma plus_eol_spec s b :
  match_here [PlusClass id_char; Eol] b s = true <->
  (s <> "" /\ all_id_chars s = true)
  \/ (exists w, s = ends_with_LF w /\ w <> "" /\ all_id_chars w = true).
Proof.
  induction s as [|c s IH].
  - simpl. split; [discriminate|].
    intros [[H _]|[w [H [Hw _]]]]; [congruence|].
    destruct w; [congruence | discriminate H].
  - cbn [match_here] in *. rewrite andb_true_r.
    rewrite andb_true_iff, orb_true_iff, IH.
    cbn [all_id_chars]. rewrite andb_true_iff.
    split.
    + intros [Hc [[[Hs Hall]|[w [Hs [Hw Hall]]]]|He]].
      * left. split; [discriminate | auto].
      * right. exists (String c w). subst s. cbn [all_id_chars].
        rewrite Hc, Hall. split; [reflexivity|]. split; [discriminate|reflexivity].
      * destruct s as [|d s]; [left; split; [discriminate | auto]|].
        destruct s; [|discriminate He]. simpl in He.
        apply Ascii.eqb_eq in He. subst d.
        right. exists (String c ""). cbn [all_id_chars].
        rewrite Hc. split; [reflexivity|]. split; [discriminate|reflexivity].
    + intros [[_ [Hc Hall]]|[w [Hs [Hw Hall]]]].
      * split; [exact Hc|].
        destruct s; [right; reflexivity|].
        left. left. split; [discriminate | exact Hall].
      * destruct w as [|d w]; [congruence|].
        injection Hs as Hd Hs. subst d. cbn [all_id_chars] in Hall.
        apply andb_true_iff in Hall. destruct Hall as [Hc Hall].
        split; [exact Hc|].
        destruct w as [|e w].
        -- right. subst s. reflexivity.
        -- left. right. exists (String e w).
           split; [exact Hs|]. split; [discriminate | exact Hall].
Qed.

(** The strings that the validator accepts: those of the format, and
    those of the format followed by one line feed, as long as the whole
    is at most 100 characters long. *)
Lemma validate_conversation_id_accepts s :
  fst (validate_conversation_id s) = true <->
  id_format_ok s = true
  \/ (exists w, s = ends_with_LF w /\ w <> "" /\ all_id_chars w = true
                /\ (String.length s <= 100)%nat).
Proof.
  unfold validate_conversation_id, id_format_ok, re_match, pattern.
  cbn [match_here]. cbn [andb].
  fold (match_here [PlusClass id_char; Eol] false s).
  destruct s as [|c s]; [simpl; split; [discriminate|] |].
  { intros [H|[w [H [Hw _]]]]; [discriminate H|].
    destruct w; [congruence | discriminate H]. }
  cbn [py_not negb andb].
  destruct (match_here [PlusClass id_char; Eol] false (String c s)) eqn:Hm;
    cbn [negb].
  - apply plus_eol_spec in Hm.
    destruct (Nat.ltb_spec 100 (String.length (String c s))) as [Hl|Hl];
      cbn [fst].
    + split; [discriminate|].
      intros [H|[w [_ [_ [_ H]]]]]; [|lia].
      apply andb_true_iff in H. destruct H as [_ H].
      apply Nat.leb_le in H. lia.
    + split; [intros _|reflexivity].
      destruct Hm as [[_ Hall]|[w [Hs [Hw Hall]]]].
      * left. rewrite Hall. apply Nat.leb_le. exact Hl.
      * right. exists w. auto.
  - cbn [fst]. split; [discriminate|].
    intro H.
    assert (Hm' : match_here [PlusClass id_char; Eol] false (String c s) = true).
    { apply plus_eol_spec.
      destruct H as [H|[w [Hs [Hw [Hall _]]]]].
      - left. apply andb_true_iff in H. destruct H as [H _].
        split; [discriminate | exact H].
      - right. exists w. auto. }
    congruence.
Qed.

(** Every string of the format is accepted by the validator. *)
Lemma validate_conversation_id_complete s :
  id_format_ok s = true -> validate_conversation_id s = (true, None).
Proof.
  intro H.
  assert (Ha : fst (validate_conversation_id s) = true)
    by (apply validate_conversation_id_accepts; left; exact H).
  revert Ha. unfold validate_conversation_id.
  destruct (py_not s); [discriminate|].
  destruct (negb (re_match pattern s)); [discriminate|].
  destruct (100 <? String.length s)%nat; [discriminate | reflexivity].
Qed.

End ValidatorFacts.

(** C9: the validator is meant to accept exactly the non-empty strings of
    at most 100 characters from [[a-zA-Z0-9_-]].  It accepts "abc-123_ok"
    and rejects "abc 123", but it also accepts "abc" followed by a line
    feed, which is not of that format. *)
Theorem validate_conversation_id_accepts_trailing_line_feed :
  Validators.validate_conversation_id (ends_with_LF "abc") = (true, None)
  /\ Validators.id_format_ok (ends_with_LF "abc") = false
  /\ Validators.id_char LF = false.
Proof. repeat split. Qed.

(* ------------------------------------------------------------------ *)
(** ** Gap analysis *)

Section GapFacts.
Import GapAnalysisService.

Lemma analyze_conversation_nonempty E cid w h w' :
  ChatService.get_conversation_history E cid 50 w = (Ok h, w') ->
  ConversationHistory.messages h <> [] ->
  analyze_conversation E cid w
  = (Ok (analyze_messages cid (ConversationHistory.messages h)), w').
Proof.
  intros Hh Hne. unfold analyze_conversation, try_except, bind.
  rewrite Hh. destruct (ConversationHistory.messages h); [congruence|reflexivity].
Qed.

(** The raw score is 100 minus the penalties of the rules that fire. *)
Lemma run_rules_score u a :
  snd (run_rules u a)
  = 100 - (if cond1 u then 20 else 0) - (if cond2 u a then 10 else 0)
        - (if cond3 a then 15 else 0) - (if cond4 u then 15 else 0)
        - (if cond5 u then 10 else 0) - (if cond6 u a then 25 else 0).
Proof.
  unfold run_rules, rules_1_to_5, gap1, gap2, gap3, gap4, gap5, gap6, trigger.
  destruct (cond1 u), (cond2 u a), (cond3 a), (cond4 u), (cond5 u),
    (cond6 u a); simpl; lia.
Qed.

Lemma In_trigger g c g' p st :
  In g (fst (trigger c g' p st)) <-> In g (fst st) \/ (c = true /\ g = g').
Proof.
  unfold trigger. destruct c; simpl.
  - rewrite in_app_iff. simpl. intuition congruence.
  - intuition congruence.
Qed.

(** A gap is reported exactly when its rule fires. *)
Lemma In_run_rules g u a :
  In g (fst (run_rules u a)) <->
  (cond1 u = true /\ g = missing_context)
  \/ (cond2 u a = true /\ g = no_followup)
  \/ (cond3 a = true /\ g = short_responses)
  \/ (cond4 u = true /\ g = missing_details)
  \/ (cond5 u = true /\ g = no_action_items)
  \/ (cond6 u a = true /\ g = unanswered_questions).
Proof.
  unfold run_rules, rules_1_to_5, gap1, gap2, gap3, gap4, gap5, gap6.
  rewrite !In_trigger. simpl. tauto.
Qed.

Lemma analyze_messages_gaps cid msgs :
  gaps (analyze_messages cid msgs)
  = fst (run_rules (with_role "user" msgs) (with_role "assistant" msgs)).
Proof.
  unfold analyze_messages.
  destruct (run_rules _ _) as [gs sc]. reflexivity.
Qed.

Lemma analyze_messages_score cid msgs :
  completeness_score (analyze_messages cid msgs)
  = Z.max 0 (snd (run_rules (with_role "user" msgs)
                            (with_role "assistant" msgs))).
Proof.
  unfold analyze_messages.
  destruct (run_rules _ _) as [gs sc]. reflexivity.
Qed.

(** The penalties never add up to more than 70. *)
Lemma run_rules_score_bounds u a : 30 <= snd (run_rules u a) <= 100.
Proof.
  rewrite run_rules_score.
  unfold cond1, cond2, cond4, cond5.
  destruct (cond3 a), (cond6 u a),
    (has_keyword detail_keywords u), (has_keyword action_keywords u);
    simpl;
    destruct (Nat.ltb_spec (List.length u) 2),
      (Nat.eqb_spec (List.length u) 1),
      (Nat.eqb_spec (List.length a) 1),
      (Nat.ltb_spec 2 (List.length u)),
      (Nat.ltb_spec 3 (List.length u)); simpl; lia.
Qed.

Lemma reported_missing_context u a :
  In missing_context (fst (run_rules u a)) <-> cond1 u = true.
Proof.
  split; intro H.
  - apply In_run_rules in H.
    destruct H as [[H _]|[[_ H]|[[_ H]|[[_ H]|[[_ H]|[_ H]]]]]];
      [exact H | discriminate H ..].
  - apply In_run_rules. auto.
Qed.

Lemma reported_no_followup u a :
  In no_followup (fst (run_rules u a)) <-> cond2 u a = true.
Proof.
  split; intro H.
  - apply In_run_rules in H.
    destruct H as [[_ H]|[[H _]|[[_ H]|[[_ H]|[[_ H]|[_ H]]]]]];
      [discriminate H | exact H | discriminate H ..].
  - apply In_run_rules. auto.
Qed.

Lemma reported_missing_details u a :
  In missing_details (fst (run_rules u a)) <-> cond4 u = true.
Proof.
  split; intro H.
  - apply In_run_rules in H.
    destruct H as [[_ H]|[[_ H]|[[_ H]|[[H _]|[[_ H]|[_ H]]]]]];
      [discriminate H .. | exact H | discriminate H | discriminate H].
  - apply In_run_rules. auto 6.
Qed.

Lemma reported_no_action_items u a :
  In no_action_items (fst (run_rules u a)) <-> cond5 u = true.
Proof.
  split; intro H.
  - apply In_run_rules in H.
    destruct H as [[_ H]|[[_ H]|[[_ H]|[[_ H]|[[H _]|[_ H]]]]]];
      [discriminate H .. | exact H | discriminate H].
  - apply In_run_rules. auto 7.
Qed.

Lemma reported_unanswered_questions u a :
  In unanswered_questions (fst (run_rules u a)) <-> cond6 u a = true.
Proof.
  split; intro H.
  - apply In_run_rules in H.
    destruct H as [[_ H]|[[_ H]|[[_ H]|[[_ H]|[[_ H]|[H _]]]]]];
      [discriminate H .. | exact H].
  - apply In_run_rules. auto 8.
Qed.

(** The sixth rule subtracts 25 from the score the first five leave. *)
Lemma run_rules_unanswered u a :
  cond6 u a = true ->
  run_rules u a
  = ((fst (rules_1_to_5 u a) ++ [unanswered_questions])%list,
     snd (rules_1_to_5 u a) - 25).
Proof.
  intro H. unfold run_rules, gap6, trigger. rewrite H. reflexivity.
Qed.

End GapFacts.

Section GapClaims.
Import GapAnalysisService.

(** C5 as stated fails: one exchange "hi" / "hello" has one user and one
    assistant message, and its score is 55, because the short answer
    fires [short_responses] as well. *)
Lemma single_exchange_score_can_be_55 :
  exists h w' a,
    ChatService.get_conversation_history Sample.env_ok "c1" 50
      (Sample.connected [Sample.exchange "c1" "hi" "hello" 7]) = (Ok h, w')
    /\ List.length (with_role "user" (ConversationHistory.messages h)) = 1%nat
    /\ List.length (with_role "assistant" (ConversationHistory.messages h)) = 1%nat
    /\ analyze_conversation Sample.env_ok "c1"
         (Sample.connected [Sample.exchange "c1" "hi" "hello" 7]) = (Ok a, w')
    /\ completeness_score a = 55
    /\ completeness_score a <> 70.
Proof.
  eexists. eexists. eexists.
  split; [vm_compute; reflexivity|].
  split; [reflexivity|]. split; [reflexivity|].
  split; [vm_compute; reflexivity|].
  split; [reflexivity | discriminate].
Qed.

(** C5, amended: with exactly one user message [u] and one assistant
    message [am] in the history, [analyze_conversation] reports
    [missing_context] (medium) and [no_followup] (low), and the score is
    70, less 15 when [am] is shorter than 50 characters, less 25 when [u]
    holds more than one question mark. *)
Theorem single_exchange_gaps E cid w h w' u am :
  ChatService.get_conversation_history E cid 50 w = (Ok h, w') ->
  with_role "user" (ConversationHistory.messages h) = [u] ->
  with_role "assistant" (ConversationHistory.messages h) = [am] ->
  exists a,
    analyze_conversation E cid w = (Ok a, w')
    /\ In missing_context (gaps a)
    /\ Gap.severity missing_context = "medium"
    /\ In no_followup (gaps a)
    /\ Gap.severity no_followup = "low"
    /\ completeness_score a
       = 70
         - (if (String.length (ChatMessage.content am) <? 50)%nat
            then 15 else 0)
         - (if (1 <? py_count "?"%char (ChatMessage.content u))%nat
            then 25 else 0).
Proof.
  intros Hh Hu Ha.
  assert (Hne : ConversationHistory.messages h <> []).
  { intro Hnil. rewrite Hnil in Hu. discriminate Hu. }
  exists (analyze_messages cid (ConversationHistory.messages h)).
  split; [apply analyze_conversation_nonempty; assumption|].
  rewrite analyze_messages_gaps, analyze_messages_score, Hu, Ha.
  split; [apply reported_missing_context; reflexivity|].
  split; [reflexivity|].
  split; [apply reported_no_followup; reflexivity|].
  split; [reflexivity|].
  rewrite run_rules_score.
  unfold cond1, cond2, cond3, cond4, cond5, cond6, short_list, question_marks.
  simpl List.length. simpl filter. simpl map. simpl list_sum.
  rewrite Nat.add_0_r.
  rewrite !andb_false_r.
  destruct (String.length (ChatMessage.content am) <? 50)%nat;
    destruct (1 <? py_count "?"%char (ChatMessage.content u))%nat;
    reflexivity.
Qed.

Lemma single_exchange_gaps_witness :
  exists a w',
    analyze_conversation Sample.env_ok "c1"
      (Sample.connected [Sample.exchange "c1" "hi" "hello" 7]) = (Ok a, w')
    /\ In missing_context (gaps a)
    /\ In no_followup (gaps a)
    /\ completeness_score a = 55.
Proof.
  destruct (single_exchange_gaps Sample.env_ok "c1"
              (Sample.connected [Sample.exchange "c1" "hi" "hello" 7])
              (ConversationHistory.mk "c1"
                 [ChatMessage.mk "user" "hi" (Some 7);
                  ChatMessage.mk "assistant" "hello" (Some 7)]
                 (Some 7) (Some 7) 2)
              (mkWorld true true [Sample.exchange "c1" "hi" "hello" 7] 1
                       true true)
              (ChatMessage.mk "user" "hi" (Some 7))
              (ChatMessage.mk "assistant" "hello" (Some 7))
              eq_refl eq_refl eq_refl)
    as [a [H1 [H2 [_ [H3 [_ H4]]]]]].
  exists a. eexists. split; [exact H1|]. split; [exact H2|].
  split; [exact H3|exact H4].
Defined.

(** C6: when the user messages of the history hold more question marks
    than there are assistant messages, [analyze_conversation] reports
    [unanswered_questions] with severity high, and the score is the score
    left by the other five rules minus 25. *)
Theorem unanswered_questions_reported E cid w h w' :
  ChatService.get_conversation_history E cid 50 w = (Ok h, w') ->
  (List.length (with_role "assistant" (ConversationHistory.messages h))
   < question_marks (with_role "user" (ConversationHistory.messages h)))%nat ->
  exists a,
    analyze_conversation E cid w = (Ok a, w')
    /\ In unanswered_questions (gaps a)
    /\ Gap.severity unanswered_questions = "high"
    /\ gaps a
       = (fst (rules_1_to_5
                 (with_role "user" (ConversationHistory.messages h))
                 (with_role "assistant" (ConversationHistory.messages h)))
          ++ [unanswered_questions])%list
    /\ completeness_score a
       = snd (rules_1_to_5
                (with_role "user" (ConversationHistory.messages h))
                (with_role "assistant" (ConversationHistory.messages h)))
         - 25.
Proof.
  intros Hh Hq.
  set (u := with_role "user" (ConversationHistory.messages h)) in *.
  set (am := with_role "assistant" (ConversationHistory.messages h)) in *.
  assert (Hne : ConversationHistory.messages h <> []).
  { intro Hnil. subst u am. rewrite Hnil in Hq.
    unfold question_marks in Hq. simpl in Hq. lia. }
  assert (Hc : cond6 u am = true) by (apply Nat.ltb_lt; exact Hq).
  exists (analyze_messages cid (ConversationHistory.messages h)).
  split; [apply analyze_conversation_nonempty; assumption|].
  rewrite analyze_messages_gaps, analyze_messages_score.
  fold u am.
  split; [apply reported_unanswered_questions; exact Hc|].
  split; [reflexivity|].
  pose proof (run_rules_score_bounds u am) as Hb.
  rewrite (run_rules_unanswered u am Hc) in *. simpl fst. simpl snd in *.
  split; [reflexivity | lia].
Qed.

Lemma unanswered_questions_reported_witness :
  exists a w',
    analyze_conversation Sample.env_ok "c1"
      (Sample.connected [Sample.exchange "c1" "why? how?" "hello" 7])
    = (Ok a, w')
    /\ In unanswered_questions (gaps a)
    /\ completeness_score a = 30.
Proof.
  destruct (unanswered_questions_reported Sample.env_ok "c1"
              (Sample.connected [Sample.exchange "c1" "why? how?" "hello" 7])
              (ConversationHistory.mk "c1"
                 [ChatMessage.mk "user" "why? how?" (Some 7);
                  ChatMessage.mk "assistant" "hello" (Some 7)]
                 (Some 7) (Some 7) 2)
              (mkWorld true true
                       [Sample.exchange "c1" "why? how?" "hello" 7] 1
                       true true)
              eq_refl)
    as [a [H1 [H2 [_ [_ H3]]]]].
  - vm_compute. lia.
  - exists a. eexists. split; [exact H1|]. split; [exact H2|exact H3].
Defined.

(** The example of the specification: four user messages with three
    question marks in all and two assistant messages. *)
Example unanswered_4_users_2_assistants :
  let msgs :=
    [ChatMessage.mk "user" "what is it?" None;
     ChatMessage.mk "assistant" "It is a list." None;
     ChatMessage.mk "user" "why? and how?" None;
     ChatMessage.mk "user" "ok" None;
     ChatMessage.mk "assistant" "Because." None;
     ChatMessage.mk "user" "thanks" None] in
  question_marks (with_role "user" msgs) = 3%nat
  /\ In unanswered_questions (gaps (analyze_messages "c1" msgs))
  /\ completeness_score (analyze_messages "c1" msgs) = 100 - 15 - 10 - 25.
Proof.
  simpl. split; [reflexivity|]. split; [|reflexivity].
  vm_compute. tauto.
Qed.

(** C10: for a non-empty history, [missing_context] and
    [missing_details] are never both reported, nor are [no_followup] and
    [no_action_items]; the penalties add up to at most 70, the score is
    at least 30, and the floor [max(0, score)] leaves the score as it is. *)
Theorem gap_rules_exclusive_score_at_least_30 E cid w h w' :
  ChatService.get_conversation_history E cid 50 w = (Ok h, w') ->
  ConversationHistory.messages h <> [] ->
  exists a,
    analyze_conversation E cid w = (Ok a, w')
    /\ ~ (In missing_context (gaps a) /\ In missing_details (gaps a))
    /\ ~ (In no_followup (gaps a) /\ In no_action_items (gaps a))
    /\ (let raw :=
          snd (run_rules
                 (with_role "user" (ConversationHistory.messages h))
                 (with_role "assistant" (ConversationHistory.messages h))) in
        100 - raw <= 70 /\ Z.max 0 raw = raw /\ completeness_score a = raw)
    /\ 30 <= completeness_score a.
Proof.
  intros Hh Hne.
  exists (analyze_messages cid (ConversationHistory.messages h)).
  split; [apply analyze_conversation_nonempty; assumption|].
  rewrite analyze_messages_gaps, analyze_messages_score.
  set (u := with_role "user" (ConversationHistory.messages h)).
  set (am := with_role "assistant" (ConversationHistory.messages h)).
  pose proof (run_rules_score_bounds u am) as Hb.
  split.
  { intros [H1 H4].
    apply reported_missing_context in H1.
    apply reported_missing_details in H4.
    unfold cond1 in H1. unfold cond4 in H4.
    apply Nat.ltb_lt in H1. apply andb_true_iff in H4.
    destruct H4 as [_ H4]. apply Nat.ltb_lt in H4. lia. }
  split.
  { intros [H2 H5].
    apply reported_no_followup in H2.
    apply reported_no_action_items in H5.
    unfold cond2 in H2. unfold cond5 in H5.
    apply andb_true_iff in H2. destruct H2 as [H2 _].
    apply Nat.eqb_eq in H2. apply andb_true_iff in H5.
    destruct H5 as [_ H5]. apply Nat.ltb_lt in H5. lia. }
  split; [cbv zeta|]; lia.
Qed.

Lemma gap_rules_exclusive_score_at_least_30_witness :
  exists a w',
    analyze_conversation Sample.env_ok "c1"
      (Sample.connected [Sample.exchange "c1" "why? how?" "hello" 7])
    = (Ok a, w')
    /\ 30 <= completeness_score a.
Proof.
  destruct (gap_rules_exclusive_score_at_least_30 Sample.env_ok "c1"
              (Sample.connected [Sample.exchange "c1" "why? how?" "hello" 7])
              (ConversationHistory.mk "c1"
                 [ChatMessage.mk "user" "why? how?" (Some 7);
                  ChatMessage.mk "assistant" "hello" (Some 7)]
                 (Some 7) (Some 7) 2)
              (mkWorld true true
                       [Sample.exchange "c1" "why? how?" "hello" 7] 1
                       true true)
              eq_refl)
    as [a [H1 [_ [_ [_ H2]]]]].
  - discriminate.
  - exists a. eexists. split; [exact H1|exact H2].
Defined.

End GapClaims.

(* ------------------------------------------------------------------ *)
(** ** The orchestrator and the read paths under failure *)

Section FailureFacts.
Import ChatService.

(** Whatever the store does, [send_message] returns the provider's text. *)
Lemma send_message_returns_response E message conversation_id chat_history
      w c w0 r w1 o w2 :
  resolve_conversation_id E conversation_id w = (Ok c, w0) ->
  generate_response E message (history_of chat_history) w0 = (Ok r, w1) ->
  _store_message E c message r w1 = (o, w2) ->
  send_message E message conversation_id chat_history w
  = (Ok (mkSendResult r c (utc_now E (tick w2))), advance w2).
Proof.
  intros Hc Hr Hs. unfold send_message.
  unfold bind at 1. rewrite Hc.
  unfold bind at 1. rewrite Hr.
  unfold bind at 1. unfold try_except. rewrite Hs.
  destruct o as [[]|e]; [|destruct (connection_issue e)]; reflexivity.
Qed.

(** The first step of [send_message] cannot fail. *)
Lemma resolve_conversation_id_ok E conversation_id w :
  exists c w0, resolve_conversation_id E conversation_id w = (Ok c, w0).
Proof.
  unfold resolve_conversation_id.
  destruct conversation_id as [c|]; [destruct (py_not c)|];
    eexists; eexists; reflexivity.
Qed.

(** C2: when the provider answers and [_store_message] then raises,
    whatever the exception, [send_message] still returns the answer, the
    conversation id and a timestamp; the failure is not propagated. *)
Theorem send_message_survives_storage_failure
        E message conversation_id chat_history w c w0 r w1 e w2 :
  resolve_conversation_id E conversation_id w = (Ok c, w0) ->
  generate_response E message (history_of chat_history) w0 = (Ok r, w1) ->
  _store_message E c message r w1 = (Raise e, w2) ->
  exists now w',
    send_message E message conversation_id chat_history w
    = (Ok (mkSendResult r c now), w').
Proof.
  intros Hc Hr Hs. eexists. eexists.
  eapply send_message_returns_response; eassumption.
Qed.

Lemma send_message_survives_storage_failure_witness :
  exists now w',
    send_message Sample.env_store_down "hello" (Some "conv_1") None
                 (Sample.fresh [])
    = (Ok (mkSendResult "echo: hello" "conv_1" now), w')
    /\ docs w' = [].
Proof.
  destruct (send_message_survives_storage_failure
              Sample.env_store_down "hello" (Some "conv_1") None
              (Sample.fresh []) "conv_1" (Sample.fresh [])
              "echo: hello" (advance (Sample.fresh []))
              "Database connection failed: SSL handshake failed"
              (advance (advance (Sample.fresh [])))
              eq_refl eq_refl eq_refl) as [now [w' H]].
  exists now, w'. split; [exact H|].
  vm_compute in H. injection H as _ H. subst w'. reflexivity.
Defined.

(** The handler of [get_conversation_summaries] turns every exception of
    its [try] block into the empty list. *)
Lemma get_conversation_summaries_handler E limit w :
  get_conversation_summaries E limit w
  = match summaries_body E limit w with
    | (Ok l, w') => (Ok l, w')
    | (Raise _, w') => (Ok [], w')
    end.
Proof.
  unfold get_conversation_summaries, try_except.
  destruct (summaries_body E limit w) as [[l|e] w']; [reflexivity|].
  destruct (connection_issue e); reflexivity.
Qed.

Lemma summaries_loop_nil : summaries_loop [] = [].
Proof. reflexivity. Qed.

(** On an empty collection the [try] block returns the empty list
    whenever it returns. *)
Lemma summaries_body_empty E limit w l w' :
  docs w = [] -> summaries_body E limit w = (Ok l, w') -> l = [].
Proof.
  destruct w as [db cc ds tk dbs cs]. cbn [docs]. intros ->.
  run_m. destruct db, cc; cbn; repeat case_fault;
    intro H; try discriminate H; injection H as <- _; reflexivity.
Qed.

(** C3: [get_conversation_summaries] never raises.  It returns the empty
    list when the store is disconnected and the reconnection fails, when
    the collection is empty, and when anything inside its [try] block
    raises, the aggregation included. *)
Theorem get_conversation_summaries_never_raises E limit w :
  (exists l w', get_conversation_summaries E limit w = (Ok l, w'))
  /\ (forall e, database w = false ->
                fault E (tick w) OpConnect = Some e ->
                get_conversation_summaries E limit w = (Ok [], advance w))
  /\ (docs w = [] -> fst (get_conversation_summaries E limit w) = Ok [])
  /\ (forall e w', summaries_body E limit w = (Raise e, w') ->
                   get_conversation_summaries E limit w = (Ok [], w'))
  /\ (forall e, database w = true -> conversations_collection w = true ->
                docs w <> [] ->
                fault E (tick w) OpCount = None ->
                fault E (S (tick w)) OpAggregate = Some e ->
                summaries_body E limit w
                = (Raise e, advance (advance w))
                /\ get_conversation_summaries E limit w
                   = (Ok [], advance (advance w))).
Proof.
  rewrite get_conversation_summaries_handler.
  split; [|split; [|split; [|split]]].
  - destruct (summaries_body E limit w) as [[l|e] w'];
      eexists; eexists; reflexivity.
  - intros e Hdb Hf. destruct w as [db cc ds tk dbs cs].
    cbn [database tick] in *. subst db. run_m. rewrite Hf. reflexivity.
  - intro Hd.
    destruct (summaries_body E limit w) as [[l|e] w'] eqn:Hb; [|reflexivity].
    apply summaries_body_empty in Hb; [|exact Hd]. subst l. reflexivity.
  - intros e w' Hb. rewrite Hb. reflexivity.
  - intros e Hdb Hcc Hd Hc Ha. destruct w as [db cc ds tk dbs cs].
    cbn [database conversations_collection docs tick] in *. subst db cc.
    assert (Hb : summaries_body E limit (mkWorld true true ds tk dbs cs)
                 = (Raise e, advance (advance (mkWorld true true ds tk dbs cs)))).
    { run_m. rewrite Hc. cbn.
      destruct ds as [|d ds]; [congruence|]. cbn. rewrite Ha. reflexivity. }
    rewrite Hb. split; reflexivity.
Qed.

Lemma get_conversation_summaries_never_raises_witness :
  get_conversation_summaries Sample.env_store_down 20 (Sample.fresh [])
  = (Ok [], advance (Sample.fresh [])).
Proof.
  exact (proj1 (proj2 (get_conversation_summaries_never_raises
                         Sample.env_store_down 20 (Sample.fresh [])))
               "SSL handshake failed" eq_refl eq_refl).
Defined.

End FailureFacts.

(* ------------------------------------------------------------------ *)
(** ** Deleting a conversation *)

Section DeleteFacts.
Import ChatService.

Lemma filter_none {A} (p : A -> bool) (l : list A) :
  (forall x, In x l -> p x = false) -> filter p l = [].
Proof.
  induction l as [|x l IH]; intro H; [reflexivity|].
  simpl. rewrite (H x (or_introl eq_refl)).
  apply IH. intros y Hy. apply H. right. exact Hy.
Qed.

Lemma filter_all {A} (p : A -> bool) (l : list A) :
  (forall x, In x l -> p x = true) -> filter p l = l.
Proof.
  induction l as [|x l IH]; intro H; [reflexivity|].
  simpl. rewrite (H x (or_introl eq_refl)). f_equal.
  apply IH. intros y Hy. apply H. right. exact Hy.
Qed.

Lemma matches_iff cid d :
  Mongo.matches cid d = true <-> Doc.conversation_id d = cid.
Proof. unfold Mongo.matches. apply String.eqb_eq. Qed.

Lemma matches_false_iff cid d :
  Mongo.matches cid d = false <-> Doc.conversation_id d <> cid.
Proof. unfold Mongo.matches. apply String.eqb_neq. Qed.

(** With a reachable store, [delete_conversation] removes the exchanges
    of the id and tells whether there were any. *)
Lemma delete_conversation_no_fault E cid w :
  no_faults E ->
  exists w',
    delete_conversation E cid w
    = (Ok (0 <? List.length (filter (Mongo.matches cid) (docs w)))%nat, w')
    /\ docs w' = filter (fun d => negb (Mongo.matches cid d)) (docs w).
Proof.
  intro Hnf. destruct w as [db cc ds tk dbs cs].
  unfold delete_conversation, delete_many, set_docs. run_m.
  destruct db, cc; cbn; rewrite ?Hnf; cbn; rewrite ?Hnf; cbn;
    eexists; split; reflexivity.
Qed.

Lemma get_chat_service_no_fault E w :
  no_faults E ->
  exists w', get_chat_service E w = (Ok tt, w') /\ docs w' = docs w.
Proof.
  intro Hnf. destruct w as [db cc ds tk dbs cs].
  unfold get_chat_service, DatabaseService.get_database_service,
    set_db_service, set_chat_service, try_except.
  run_m.
  destruct cs, dbs, db; cbn;
    destruct (String.eqb (py_lower (AI_PROVIDER E)) "openai"); cbn;
    rewrite ?Hnf; cbn; rewrite ?Hnf; cbn; eexists; split; reflexivity.
Qed.

(** The route answers 404 exactly on the [False] of the service. *)
Lemma route_delete_not_found E cid w w' :
  Validators.validate_conversation_id cid = (true, None) ->
  (get_chat_service E ;;; delete_conversation E cid) w = (Ok false, w') ->
  Routes.delete_conversation E cid w
  = (Routes.HTTPException 404 "Conversation not found", w').
Proof.
  intros Hv Hs. unfold Routes.delete_conversation. rewrite Hv, Hs.
  reflexivity.
Qed.

(** C8: with a reachable store, [delete_conversation] on an id without
    exchanges returns [False] and raises nothing; on an id with at least
    one exchange it deletes all of them and returns [True]; the route
    answers the [False] with status 404. *)
Theorem delete_conversation_reports_existence E cid w :
  no_faults E ->
  ((forall d, In d (docs w) -> Doc.conversation_id d <> cid) ->
   (exists w', delete_conversation E cid w = (Ok false, w')
               /\ docs w' = docs w)
   /\ (Validators.validate_conversation_id cid = (true, None) ->
       exists w', Routes.delete_conversation E cid w
                  = (Routes.HTTPException 404 "Conversation not found", w')))
  /\ ((exists d, In d (docs w) /\ Doc.conversation_id d = cid) ->
      exists w', delete_conversation E cid w = (Ok true, w')
                 /\ (forall d, In d (docs w') <->
                               In d (docs w) /\ Doc.conversation_id d <> cid)).
Proof.
  intro Hnf. split.
  - intro Hnone.
    assert (Hf : filter (Mongo.matches cid) (docs w) = []).
    { apply filter_none. intros d Hd. apply matches_false_iff. auto. }
    assert (Hk : forall w0, docs w0 = docs w ->
              filter (fun d => negb (Mongo.matches cid d)) (docs w0) = docs w).
    { intros w0 Hw0. rewrite Hw0. apply filter_all. intros d Hd.
      apply negb_true_iff, matches_false_iff. auto. }
    split.
    + destruct (delete_conversation_no_fault E cid w Hnf) as [w' [H1 H2]].
      exists w'. rewrite H1, Hf, H2. split; [reflexivity | auto].
    + intro Hv.
      destruct (get_chat_service_no_fault E w Hnf) as [w1 [Hg Hd1]].
      destruct (delete_conversation_no_fault E cid w1 Hnf) as [w' [H1 _]].
      exists w'. apply route_delete_not_found; [exact Hv|].
      unfold bind. rewrite Hg, H1, Hd1, Hf. reflexivity.
  - intros [d [Hd Hid]].
    destruct (delete_conversation_no_fault E cid w Hnf) as [w' [H1 H2]].
    exists w'. split.
    + rewrite H1. f_equal. f_equal.
      assert (Hin : In d (filter (Mongo.matches cid) (docs w))).
      { apply filter_In. split; [exact Hd | apply matches_iff; exact Hid]. }
      destruct (filter (Mongo.matches cid) (docs w)); [destruct Hin | reflexivity].
    + intro x. rewrite H2, filter_In, negb_true_iff, matches_false_iff.
      tauto.
Qed.

Lemma delete_conversation_reports_existence_witness :
  (exists w', delete_conversation Sample.env_ok "nobody"
                (Sample.fresh [Sample.exchange "c1" "hi" "hello" 7])
              = (Ok false, w'))
  /\ (exists w', Routes.delete_conversation Sample.env_ok "nobody"
                   (Sample.fresh [Sample.exchange "c1" "hi" "hello" 7])
                 = (Routes.HTTPException 404 "Conversation not found", w'))
  /\ (exists w', delete_conversation Sample.env_ok "c1"
                   (Sample.fresh [Sample.exchange "c1" "hi" "hello" 7])
                 = (Ok true, w')
                 /\ docs w' = []).
Proof.
  assert (Hnf : no_faults Sample.env_ok) by (intros n op; reflexivity).
  destruct (delete_conversation_reports_existence Sample.env_ok "nobody"
              (Sample.fresh [Sample.exchange "c1" "hi" "hello" 7]) Hnf)
    as [Ha _].
  destruct (delete_conversation_reports_existence Sample.env_ok "c1"
              (Sample.fresh [Sample.exchange "c1" "hi" "hello" 7]) Hnf)
    as [_ Hb].
  destruct Ha as [[w1 [H1 _]] Hr].
  { intros d [<-|[]]. discriminate. }
  destruct (Hr eq_refl) as [w2 H2].
  destruct Hb as [w3 [H3 H4]].
  { eexists. split; [left; reflexivity | reflexivity]. }
  split; [exists w1; exact H1|]. split; [exists w2; exact H2|].
  exists w3. split; [exact H3|].
  destruct (docs w3) as [|x l]; [reflexivity|].
  destruct (proj1 (H4 x) (or_introl eq_refl)) as [[<-|[]] Hx].
  exfalso. apply Hx. reflexivity.
Defined.

End DeleteFacts.

(* ------------------------------------------------------------------ *)
(** ** The sort of the store *)

Section SortFacts.
Import Mongo.
Context {A : Type} (key : A -> Z).

Lemma insert_by_perm x l : Permutation (insert_by key x l) (x :: l).
Proof.
  induction l as [|y l IH]; simpl; [reflexivity|].
  destruct (key x <=? key y); [reflexivity|].
  rewrite IH. apply perm_swap.
Qed.

Lemma sort_by_perm l : Permutation (sort_by key l) l.
Proof.
  induction l as [|x l IH]; simpl; [reflexivity|].
  rewrite insert_by_perm. constructor. exact IH.
Qed.

Lemma sort_by_length l : List.length (sort_by key l) = List.length l.
Proof. apply Permutation_length, sort_by_perm. Qed.

Lemma sort_by_In x l : In x (sort_by key l) <-> In x l.
Proof.
  split; apply Permutation_in;
    [apply sort_by_perm | symmetry; apply sort_by_perm].
Qed.

Lemma insert_by_ascending x l :
  ascending key l -> ascending key (insert_by key x l).
Proof.
  unfold ascending. induction l as [|y l IH]; intro Hs; simpl.
  - constructor; constructor.
  - inversion Hs as [|? ? Hl Hy]; subst.
    destruct (Z.leb_spec (key x) (key y)) as [Hxy|Hxy].
    + constructor; [exact Hs|].
      constructor; [exact Hxy|].
      eapply Forall_impl; [|exact Hy]. intros a Ha. cbv beta in *. lia.
    + constructor; [apply IH; exact Hl|].
      apply Forall_forall. intros z Hz.
      apply (Permutation_in _ (insert_by_perm x l)) in Hz.
      destruct Hz as [<-|Hz]; [lia|].
      rewrite Forall_forall in Hy. apply Hy. exact Hz.
Qed.

Lemma sort_by_ascending l : ascending key (sort_by key l).
Proof.
  induction l as [|x l IH]; simpl; [constructor|].
  apply insert_by_ascending, IH.
Qed.

Lemma firstn_In (x : A) n l : In x (firstn n l) -> In x l.
Proof.
  revert l. induction n as [|n IH]; intros l H; [destruct H|].
  destruct l as [|y l]; [destruct H|].
  destruct H as [H|H]; [left; exact H | right; apply IH; exact H].
Qed.

Lemma ascending_firstn n l : ascending key l -> ascending key (firstn n l).
Proof.
  unfold ascending. revert l.
  induction n as [|n IH]; intros l Hs; [constructor|].
  destruct l as [|x l]; [constructor|]. simpl.
  inversion Hs as [|? ? Hl Hx]; subst.
  constructor; [apply IH; exact Hl|].
  apply Forall_forall. intros y Hy.
  rewrite Forall_forall in Hx. apply Hx.
  eapply firstn_In. exact Hy.
Qed.

(** Inserting in front of elements that are all at least as large. *)
Lemma insert_by_head x l :
  Forall (fun y => key x <= key y) l -> insert_by key x l = x :: l.
Proof.
  destruct l as [|y l]; [reflexivity|]. intro H. simpl.
  inversion H; subst.
  destruct (Z.leb_spec (key x) (key y)); [reflexivity | lia].
Qed.

(** The sort is stable, so it commutes with a filter. *)
Lemma filter_insert_by p x l :
  ascending key l ->
  filter p (insert_by key x l)
  = if p x then insert_by key x (filter p l) else filter p l.
Proof.
  unfold ascending. induction l as [|y l IH]; intro Hs; simpl.
  - destruct (p x); reflexivity.
  - inversion Hs as [|? ? Hl Hy]; subst.
    destruct (Z.leb_spec (key x) (key y)) as [Hxy|Hxy].
    + simpl. destruct (p x); [|reflexivity].
      symmetry. apply insert_by_head.
      assert (Hall : Forall (fun z => key x <= key z) (y :: l)).
      { constructor; [exact Hxy|].
        eapply Forall_impl; [|exact Hy]. intros a Ha. cbv beta in *. lia. }
      apply Forall_forall. intros z Hz.
      rewrite Forall_forall in Hall. apply Hall.
      change (if p y then y :: filter p l else filter p l)
        with (filter p (y :: l)) in Hz.
      apply filter_In in Hz. tauto.
    + simpl. rewrite (IH Hl).
      destruct (p y), (p x); try reflexivity.
      simpl. destruct (Z.leb_spec (key x) (key y)); [lia | reflexivity].
Qed.

Lemma filter_sort_by p l :
  filter p (sort_by key l) = sort_by key (filter p l).
Proof.
  induction l as [|x l IH]; [reflexivity|]. simpl.
  rewrite filter_insert_by by apply sort_by_ascending.
  rewrite IH. destruct (p x); reflexivity.
Qed.

End SortFacts.

(* ------------------------------------------------------------------ *)
(** ** Appending exchanges and reading the history back *)

Section HistoryFacts.
Import ChatService Reading.

Lemma new_message_ok role content ts :
  ChatMessage.validate_role role = true -> py_not content = false ->
  ChatMessage.new role content ts = Ok (ChatMessage.mk role content ts).
Proof.
  intros Hr Hc. unfold ChatMessage.new. rewrite Hr.
  destruct content; [discriminate Hc | reflexivity].
Qed.

Lemma new_message_empty role ts :
  ChatMessage.new role "" ts = Raise "validation error for ChatMessage".
Proof.
  unfold ChatMessage.new. rewrite andb_false_r. reflexivity.
Qed.

(** The loop of [get_conversation_history] on exchanges whose texts are
    all non-empty: two messages per exchange, in the order of the cursor. *)
Lemma history_loop_ok cursor : forall msgs c u,
  Forall (fun d => texts_present d = true) cursor ->
  history_loop cursor (msgs, c, u)
  = Ok ((msgs ++ flat_map two_messages cursor)%list,
        match c with
        | Some _ => c
        | None => hd_error (map Doc.created_at cursor)
        end,
        fold_left (fun _ d => Some (Doc.timestamp d)) cursor u).
Proof.
  induction cursor as [|d cursor IH]; intros msgs c u Hall.
  - simpl. rewrite app_nil_r. destruct c; reflexivity.
  - inversion Hall as [|? ? Hd Hrest]; subst.
    unfold texts_present in Hd. apply andb_true_iff in Hd.
    destruct Hd as [Hu Ha]. apply negb_true_iff in Hu, Ha.
    cbn [history_loop history_step].
    rewrite (new_message_ok "user" _ _ eq_refl Hu).
    rewrite (new_message_ok "assistant" _ _ eq_refl Ha).
    rewrite (IH _ _ _ Hrest).
    cbn [flat_map two_messages map hd_error fold_left].
    rewrite <- app_assoc. cbn [app].
    destruct c; reflexivity.
Qed.

(** One exchange with an empty text makes the loop raise. *)
Lemma history_loop_raises cursor : forall acc,
  Exists (fun d => texts_present d = false) cursor ->
  exists e, history_loop cursor acc = Raise e.
Proof.
  induction cursor as [|d cursor IH]; intros [[msgs c] u] Hex;
    [inversion Hex|].
  cbn [history_loop].
  destruct (history_step (msgs, c, u) d) as [acc'|e] eqn:Hstep;
    [|exists e; reflexivity].
  inversion Hex as [? ? Hd|? ? Hrest]; subst; [|apply IH; exact Hrest].
  exfalso. unfold history_step in Hstep.
  unfold texts_present in Hd. apply andb_false_iff in Hd.
  destruct Hd as [Hd|Hd]; apply negb_false_iff in Hd.
  - destruct (Doc.user_message d); [|discriminate Hd].
    rewrite new_message_empty in Hstep. discriminate Hstep.
  - destruct (Doc.assistant_message d); [|discriminate Hd].
    rewrite new_message_empty in Hstep.
    destruct (ChatMessage.new "user" _ _); discriminate Hstep.
Qed.

(** With a reachable store, [get_conversation_history] is the loop run
    over the sorted, capped exchanges of the conversation. *)
Lemma get_conversation_history_no_fault E cid limit w :
  no_faults E ->
  exists w',
    get_conversation_history E cid limit w
    = (match history_loop (Mongo.find_sorted cid limit (docs w))
                          ([], None, None) with
       | Ok (messages, created_at, updated_at) =>
           Ok (ConversationHistory.mk cid messages created_at updated_at
                                      (List.length messages))
       | Raise e => Raise e
       end, w')
    /\ docs w' = docs w.
Proof.
  intro Hnf. destruct w as [db cc ds tk dbs cs].
  unfold get_conversation_history, find. run_m.
  destruct db, cc; cbn; rewrite ?Hnf; cbn; rewrite ?Hnf; cbn;
    (destruct (history_loop (Mongo.find_sorted cid limit ds) ([], None, None))
       as [[[m c] u]|e]; eexists; split; reflexivity).
Qed.

(** With a reachable store, [_store_message] appends exactly one
    document, stamped with the clock. *)
Lemma store_message_no_fault E cid u a w :
  no_faults E ->
  exists t w',
    _store_message E cid u a w = (Ok tt, w')
    /\ docs w'
       = (docs w ++ [Doc.mk cid u a t t (String.length u + String.length a)])%list.
Proof.
  intro Hnf. destruct w as [db cc ds tk dbs cs].
  unfold _store_message, insert_one, get_utc_now, set_docs, try_except.
  run_m.
  destruct db, cc; cbn; rewrite ?Hnf; cbn; rewrite ?Hnf; cbn;
    eexists; eexists; split; reflexivity.
Qed.

Lemma store_all_no_fault E cid exs : forall w,
  no_faults E ->
  exists new w',
    store_all E cid exs w = (Ok tt, w')
    /\ docs w' = (docs w ++ new)%list
    /\ map (fun d => (Doc.user_message d, Doc.assistant_message d)) new = exs
    /\ Forall (fun d => Doc.conversation_id d = cid) new.
Proof.
  induction exs as [|[u a] exs IH]; intros w Hnf.
  - exists [], w. rewrite app_nil_r. repeat split. constructor.
  - destruct (store_message_no_fault E cid u a w Hnf) as [t [w1 [H1 Hd1]]].
    destruct (IH w1 Hnf) as [new [w' [H2 [Hd2 [Hm Hc]]]]].
    exists (Doc.mk cid u a t t (String.length u + String.length a) :: new), w'.
    cbn [store_all]. unfold bind. rewrite H1, H2.
    split; [reflexivity|]. split.
    + rewrite Hd2, Hd1, <- app_assoc. reflexivity.
    + split; [cbn; rewrite Hm; reflexivity|].
      constructor; [reflexivity | exact Hc].
Qed.

Lemma flat_map_two_messages_length ds :
  List.length (flat_map two_messages ds) = (2 * List.length ds)%nat.
Proof.
  induction ds as [|d ds IH]; [reflexivity|].
  cbn [flat_map two_messages app List.length]. rewrite IH. lia.
Qed.

Lemma filter_matches_own cid new :
  Forall (fun d => Doc.conversation_id d = cid) new ->
  filter (Mongo.matches cid) new = new.
Proof.
  intro H. apply filter_all. intros d Hd.
  rewrite Forall_forall in H. apply matches_iff. auto.
Qed.

(** C1 as stated fails: after 51 exchanges the default limit of 50 caps
    the history at 100 messages, not 102. *)
Lemma history_capped_by_default_limit :
  exists w1 h w2,
    store_all Sample.env_ok "c1" (repeat ("hi", "hello") 51) (Sample.fresh [])
    = (Ok tt, w1)
    /\ get_conversation_history Sample.env_ok "c1" 50 w1 = (Ok h, w2)
    /\ ConversationHistory.message_count h = 100%nat
    /\ ConversationHistory.message_count h <> (2 * 51)%nat.
Proof.
  eexists. eexists. eexists.
  split; [vm_compute; reflexivity|].
  split; [vm_compute; reflexivity|].
  split; [reflexivity | discriminate].
Qed.

(** C1, amended: let N exchanges with non-empty user and assistant texts
    be appended for a conversation id that had none, over a reachable
    store.  Then [get_conversation_history] with a limit of at least 1
    returns the first [min N limit] of them in non-decreasing timestamp
    order, each expanded into a user message followed by an assistant
    message; the history has [2 * min N limit] messages and that is its
    [message_count]; when N is at most the limit these are all N
    exchanges and the count is 2N. *)
Theorem history_round_trip E cid exs limit w :
  no_faults E ->
  (forall d, In d (docs w) -> Doc.conversation_id d <> cid) ->
  Forall (fun ex => fst ex <> "" /\ snd ex <> "") exs ->
  1 <= limit ->
  exists new w1 h w2 ds,
    store_all E cid exs w = (Ok tt, w1)
    /\ docs w1 = (docs w ++ new)%list
    /\ map (fun d => (Doc.user_message d, Doc.assistant_message d)) new = exs
    /\ get_conversation_history E cid limit w1 = (Ok h, w2)
    /\ ds = firstn (Z.to_nat limit) (Mongo.sort_by Doc.timestamp new)
    /\ Mongo.ascending Doc.timestamp ds
    /\ ConversationHistory.messages h = flat_map two_messages ds
    /\ List.length (ConversationHistory.messages h)
       = (2 * Nat.min (List.length exs) (Z.to_nat limit))%nat
    /\ ConversationHistory.message_count h
       = (2 * Nat.min (List.length exs) (Z.to_nat limit))%nat
    /\ ((List.length exs <= Z.to_nat limit)%nat ->
        Permutation ds new
        /\ ConversationHistory.message_count h = (2 * List.length exs)%nat).
Proof.
  intros Hnf Hfresh Htexts Hlimit.
  destruct (store_all_no_fault E cid exs w Hnf)
    as [new [w1 [Hstore [Hdocs [Hmap Hids]]]]].
  destruct (get_conversation_history_no_fault E cid limit w1 Hnf)
    as [w2 [Hget _]].
  set (ds := firstn (Z.to_nat limit) (Mongo.sort_by Doc.timestamp new)).
  assert (Hcur : Mongo.find_sorted cid limit (docs w1) = ds).
  { unfold Mongo.find_sorted, Mongo.cursor_limit.
    rewrite Hdocs, filter_app, (filter_matches_own cid new Hids).
    rewrite (filter_none (Mongo.matches cid) (docs w))
      by (intros d Hd; apply matches_false_iff; auto).
    cbn [app]. destruct (Z.eqb_spec limit 0); [lia|].
    rewrite Zabs2Nat.abs_nat_nonneg by lia. reflexivity. }
  assert (Hpresent : Forall (fun d => texts_present d = true) ds).
  { apply Forall_forall. intros d Hd.
    apply firstn_In, sort_by_In in Hd.
    assert (Hin : In (Doc.user_message d, Doc.assistant_message d) exs).
    { rewrite <- Hmap.
      apply (in_map (fun d => (Doc.user_message d, Doc.assistant_message d))).
      exact Hd. }
    rewrite Forall_forall in Htexts. destruct (Htexts _ Hin) as [Hu Ha].
    cbn [fst snd] in Hu, Ha. unfold texts_present.
    destruct (Doc.user_message d); [congruence|].
    destruct (Doc.assistant_message d); [congruence | reflexivity]. }
  assert (Hlen : List.length ds
                 = Nat.min (List.length exs) (Z.to_nat limit)).
  { subst ds. rewrite length_firstn, sort_by_length.
    rewrite <- Hmap, length_map. apply Nat.min_comm. }
  rewrite Hcur, (history_loop_ok ds [] None None Hpresent) in Hget.
  cbn [app] in Hget.
  eexists new, w1, _, w2, ds.
  split; [exact Hstore|]. split; [exact Hdocs|]. split; [exact Hmap|].
  split; [exact Hget|]. split; [reflexivity|].
  split; [apply ascending_firstn, sort_by_ascending|].
  cbn [ConversationHistory.messages ConversationHistory.message_count].
  rewrite flat_map_two_messages_length, Hlen.
  split; [reflexivity|]. split; [reflexivity|]. split; [reflexivity|].
  intro Hle. split.
  - subst ds. rewrite firstn_all2; [apply sort_by_perm|].
    rewrite sort_by_length, <- Hmap, length_map in *. exact Hle.
  - rewrite Nat.min_l by exact Hle. reflexivity.
Qed.

Lemma history_round_trip_witness :
  exists w1 h w2,
    store_all Sample.env_ok "c1" [("hi", "hello"); ("how?", "so")]
              (Sample.fresh [Sample.exchange "c0" "x" "y" 0])
    = (Ok tt, w1)
    /\ get_conversation_history Sample.env_ok "c1" 50 w1 = (Ok h, w2)
    /\ ConversationHistory.message_count h = 4%nat.
Proof.
  assert (Hnf : no_faults Sample.env_ok) by (intros n op; reflexivity).
  destruct (history_round_trip Sample.env_ok "c1"
              [("hi", "hello"); ("how?", "so")] 50
              (Sample.fresh [Sample.exchange "c0" "x" "y" 0]) Hnf)
    as [new [w1 [h [w2 [ds [H1 [_ [_ [H2 [_ [_ [_ [_ [_ H3]]]]]]]]]]]]]].
  - intros d [<-|[]]. discriminate.
  - repeat constructor; discriminate.
  - lia.
  - exists w1, h, w2. split; [exact H1|]. split; [exact H2|].
    apply H3. vm_compute. lia.
Defined.

(** An exchange with an empty text in the cursor makes
    [get_conversation_history] raise. *)
Lemma get_conversation_history_raises E cid limit w :
  no_faults E ->
  Exists (fun d => texts_present d = false)
         (Mongo.find_sorted cid limit (docs w)) ->
  exists e w', get_conversation_history E cid limit w = (Raise e, w').
Proof.
  intros Hnf Hex.
  destruct (get_conversation_history_no_fault E cid limit w Hnf)
    as [w' [Hget _]].
  destruct (history_loop_raises _ ([], None, None) Hex) as [e He].
  rewrite He in Hget. exists e, w'. exact Hget.
Qed.

End HistoryFacts.

(* ------------------------------------------------------------------ *)
(** ** The grouping of the summaries *)

Section GroupFacts.
Import Mongo Reading.

Lemma find_group_add d gs c :
  find_group c (group_add d gs)
  = if String.eqb (Doc.conversation_id d) c
    then Some (match find_group c gs with
               | Some g => group_step g d
               | None => group_start d
               end)
    else find_group c gs.
Proof.
  unfold find_group. induction gs as [|g gs IH]; cbn [group_add find].
  - cbn [group_start _id]. destruct (String.eqb _ c); reflexivity.
  - destruct (String.eqb_spec (_id g) (Doc.conversation_id d)) as [Hg|Hg];
      cbn [find group_step _id].
    + rewrite Hg. destruct (String.eqb (Doc.conversation_id d) c); reflexivity.
    + rewrite IH.
      destruct (String.eqb_spec (_id g) c) as [Hc|Hc]; [|reflexivity].
      destruct (String.eqb_spec (Doc.conversation_id d) c); [congruence|].
      reflexivity.
Qed.

Lemma ids_group_add d gs :
  map _id (group_add d gs)
  = if existsb (fun g => String.eqb (_id g) (Doc.conversation_id d)) gs
    then map _id gs
    else (map _id gs ++ [Doc.conversation_id d])%list.
Proof.
  induction gs as [|g gs IH]; cbn [group_add existsb map app]; [reflexivity|].
  destruct (String.eqb (_id g) (Doc.conversation_id d)) eqn:Hg;
    cbn [orb map]; [reflexivity|].
  rewrite IH. destruct (existsb _ gs); reflexivity.
Qed.

Lemma NoDup_group_add d gs :
  NoDup (map _id gs) -> NoDup (map _id (group_add d gs)).
Proof.
  intro Hnd. rewrite ids_group_add.
  destruct (existsb _ gs) eqn:Hex; [exact Hnd|].
  apply NoDup_app; [exact Hnd | repeat constructor; intros [] |].
  intros c Hc [<-|[]].
  apply in_map_iff in Hc. destruct Hc as [g [Hid Hg]].
  assert (Ht : existsb (fun g => String.eqb (_id g) (Doc.conversation_id d)) gs
               = true).
  { apply existsb_exists. exists g. split; [exact Hg|].
    apply String.eqb_eq. exact Hid. }
  congruence.
Qed.

Lemma fold_min_snoc l x a :
  fold_left Z.min (l ++ [x])%list a = Z.min (fold_left Z.min l a) x.
Proof. rewrite fold_left_app. reflexivity. Qed.

Lemma fold_max_snoc l x a :
  fold_left Z.max (l ++ [x])%list a = Z.max (fold_left Z.max l a) x.
Proof. rewrite fold_left_app. reflexivity. Qed.

(** One more exchange at the end of a conversation is one [group_step]. *)
Lemma reduce_group_snoc cid d0 rest d :
  reduce_group cid d0 (rest ++ [d])%list
  = group_step (reduce_group cid d0 rest) d.
Proof.
  unfold reduce_group, group_step, minimum, maximum.
  cbn [_id first_message message_count created_at updated_at].
  rewrite last_last, !map_app. cbn [map].
  rewrite fold_min_snoc, fold_max_snoc.
  cbn [List.length]. rewrite length_app. cbn [List.length].
  f_equal. lia.
Qed.

Lemma expected_group_snoc pre d c :
  expected_group (pre ++ [d])%list c
  = if String.eqb (Doc.conversation_id d) c
    then Some (match expected_group pre c with
               | Some g => group_step g d
               | None => group_start d
               end)
    else expected_group pre c.
Proof.
  unfold expected_group, exchanges_of. rewrite filter_app.
  cbn [filter]. unfold matches at 2.
  destruct (String.eqb_spec (Doc.conversation_id d) c) as [Hc|Hc].
  - destruct (filter (matches c) pre) as [|d0 rest]; cbn [app].
    + subst c. reflexivity.
    + rewrite reduce_group_snoc. reflexivity.
  - rewrite app_nil_r. reflexivity.
Qed.

(** The [$group] stage holds, for every id, the reduction of the
    exchanges of that id, and holds every id once. *)
Lemma group_fold_spec ds : forall pre gs,
  (forall c, find_group c gs = expected_group pre c) ->
  NoDup (map _id gs) ->
  (forall c, find_group c (fold_left (fun gs d => group_add d gs) ds gs)
             = expected_group (pre ++ ds)%list c)
  /\ NoDup (map _id (fold_left (fun gs d => group_add d gs) ds gs)).
Proof.
  induction ds as [|d ds IH]; intros pre gs Hf Hnd.
  - rewrite app_nil_r. split; assumption.
  - cbn [fold_left].
    replace (pre ++ d :: ds)%list with ((pre ++ [d]) ++ ds)%list
      by (rewrite <- app_assoc; reflexivity).
    apply IH.
    + intro c. rewrite find_group_add, expected_group_snoc, Hf. reflexivity.
    + apply NoDup_group_add. exact Hnd.
Qed.

Lemma group_by_conversation_spec ds :
  (forall c, find_group c (group_by_conversation ds) = expected_group ds c)
  /\ NoDup (map _id (group_by_conversation ds)).
Proof.
  unfold group_by_conversation.
  apply (group_fold_spec ds [] []); [reflexivity | constructor].
Qed.

Lemma find_group_In c gs g :
  find_group c gs = Some g -> In g gs /\ _id g = c.
Proof.
  unfold find_group. intro H. apply find_some in H.
  destruct H as [Hin Heq]. apply String.eqb_eq in Heq. auto.
Qed.

Lemma In_find_group g gs :
  NoDup (map _id gs) -> In g gs -> find_group (_id g) gs = Some g.
Proof.
  unfold find_group. induction gs as [|g' gs IH]; intros Hnd Hin;
    [destruct Hin|].
  cbn [map] in Hnd. inversion Hnd as [|? ? Hnotin Hnd']; subst.
  cbn [find].
  destruct Hin as [->|Hin]; [rewrite String.eqb_refl; reflexivity|].
  destruct (String.eqb_spec (_id g') (_id g)) as [He|He]; [|auto].
  exfalso. apply Hnotin. rewrite He. apply in_map. exact Hin.
Qed.

End GroupFacts.

(* ------------------------------------------------------------------ *)
(** ** The summaries *)

Section SummaryFacts.
Import Mongo Reading ChatService.

Lemma summaries_loop_map gs :
  Forall (fun g => _id g <> "") gs ->
  summaries_loop gs = map summary_of_group gs.
Proof.
  unfold summaries_loop. induction gs as [|g gs IH]; intro H; [reflexivity|].
  inversion H as [|? ? Hg Hgs]; subst. cbn [flat_map map].
  rewrite (IH Hgs). destruct (_id g); [congruence | reflexivity].
Qed.

Lemma exchanges_of_sorted c ds :
  exchanges_of c (sort_by Doc.timestamp ds) = chronological (exchanges_of c ds).
Proof. unfold exchanges_of, chronological. apply filter_sort_by. Qed.

Lemma In_sorted_groups g ds :
  In g (sorted_groups ds)
  <-> In g (group_by_conversation (sort_by Doc.timestamp ds)).
Proof. unfold sorted_groups. apply sort_by_In. Qed.

(** Every document of the pipeline is the reduction of its conversation. *)
Lemma sorted_groups_summary g ds :
  In g (sorted_groups ds) ->
  summary_of ds (_id g) = Some (summary_of_group g)
  /\ exists d, In d ds /\ Doc.conversation_id d = _id g.
Proof.
  intro Hin. apply In_sorted_groups in Hin.
  destruct (group_by_conversation_spec (sort_by Doc.timestamp ds))
    as [Hfind Hnd].
  pose proof (In_find_group g _ Hnd Hin) as Hg.
  rewrite Hfind in Hg. unfold expected_group in Hg.
  unfold summary_of. rewrite <- exchanges_of_sorted.
  destruct (exchanges_of (_id g) (sort_by Doc.timestamp ds))
    as [|d0 rest] eqn:Hex; [discriminate Hg|].
  injection Hg as <-. split; [reflexivity|].
  exists d0.
  assert (Hd0 : In d0 (exchanges_of (_id g) (sort_by Doc.timestamp ds)))
    by (rewrite Hex; left; reflexivity).
  unfold exchanges_of in Hd0. apply filter_In in Hd0.
  destruct Hd0 as [Hd0 Hm]. apply sort_by_In in Hd0.
  apply matches_iff in Hm. cbn [reduce_group _id]. auto.
Qed.

(** Every id of the store has its document in the pipeline. *)
Lemma sorted_groups_complete ds d :
  In d ds ->
  exists g, In g (sorted_groups ds) /\ _id g = Doc.conversation_id d.
Proof.
  intro Hd.
  destruct (group_by_conversation_spec (sort_by Doc.timestamp ds))
    as [Hfind _].
  specialize (Hfind (Doc.conversation_id d)).
  unfold expected_group in Hfind.
  destruct (exchanges_of (Doc.conversation_id d) (sort_by Doc.timestamp ds))
    as [|d0 rest] eqn:Hex.
  - exfalso.
    assert (Hin : In d (exchanges_of (Doc.conversation_id d)
                                     (sort_by Doc.timestamp ds))).
    { apply filter_In. split; [apply sort_by_In; exact Hd|].
      apply matches_iff. reflexivity. }
    rewrite Hex in Hin. destruct Hin.
  - apply find_group_In in Hfind. destruct Hfind as [Hin Hid].
    eexists. split; [apply In_sorted_groups; exact Hin | exact Hid].
Qed.

Lemma sorted_groups_NoDup ds : NoDup (map _id (sorted_groups ds)).
Proof.
  destruct (group_by_conversation_spec (sort_by Doc.timestamp ds))
    as [_ Hnd].
  eapply Permutation_NoDup; [|exact Hnd].
  apply Permutation_map. symmetry. apply sort_by_perm.
Qed.

Lemma sorted_groups_newer_first ds :
  StronglySorted newer_first (map summary_of_group (sorted_groups ds)).
Proof.
  unfold sorted_groups.
  pose proof (sort_by_ascending (fun g => - updated_at g)
                (group_by_conversation (sort_by Doc.timestamp ds))) as Hs.
  unfold ascending in Hs.
  induction Hs as [|g gs Hgs IH Hall]; cbn [map]; constructor; [exact IH|].
  apply Forall_forall. intros s Hs'.
  apply in_map_iff in Hs'. destruct Hs' as [g' [<- Hg']].
  rewrite Forall_forall in Hall. specialize (Hall g' Hg').
  unfold newer_first, summary_of_group.
  cbn [ConversationSummary.updated_at]. lia.
Qed.

(** With a reachable store and a positive limit,
    [get_conversation_summaries] is the pipeline followed by the loop. *)
Lemma get_conversation_summaries_no_fault E limit w :
  no_faults E -> 1 <= limit ->
  exists w',
    get_conversation_summaries E limit w
    = (Ok (summaries_loop (firstn (Z.to_nat limit) (sorted_groups (docs w)))),
       w').
Proof.
  intros Hnf Hl. rewrite get_conversation_summaries_handler.
  destruct w as [db cc ds tk dbs cs]. run_m.
  unfold Mongo.aggregate.
  destruct (Z.leb_spec limit 0) as [Hle|_]; [lia|].
  destruct db, cc; cbn; rewrite ?Hnf; cbn; rewrite ?Hnf; cbn;
    (destruct ds as [|d ds];
     [cbn; rewrite firstn_nil; eexists; reflexivity
     |cbn; rewrite ?Hnf; cbn; eexists; reflexivity]).
Qed.

End SummaryFacts.

(** C4: an exchange whose [assistant_message] is empty can be stored,
    and [_store_message] accepts it, but [get_conversation_history] on
    that conversation raises instead of returning a history: building the
    assistant [ChatMessage] fails on [min_length=1]. *)
Theorem history_raises_on_empty_assistant_message :
  exists w1,
    ChatService._store_message Sample.env_ok "c1" "hi" "" (Sample.fresh [])
    = (Ok tt, w1)
    /\ docs w1 = [Doc.mk "c1" "hi" "" 1 1 2]
    /\ ChatService.get_conversation_history Sample.env_ok "c1" 50 w1
       = (Raise "validation error for ChatMessage",
          mkWorld true true [Doc.mk "c1" "hi" "" 1 1 2] 4 false false).
Proof.
  eexists. split; [vm_compute; reflexivity|].
  split; [reflexivity|]. vm_compute. reflexivity.
Qed.

(* ------------------------------------------------------------------ *)
(** ** What a summary says about its conversation *)

Section SummaryMeaning.
Import Mongo Reading.

Lemma fold_min_le l : forall a,
  fold_left Z.min l a <= a /\ Forall (fun x => fold_left Z.min l a <= x) l.
Proof.
  induction l as [|x l IH]; intro a; cbn [fold_left]; [split; [lia|constructor]|].
  destruct (IH (Z.min a x)) as [H1 H2].
  split; [lia|]. constructor; [lia | exact H2].
Qed.

Lemma fold_min_attained l : forall a,
  fold_left Z.min l a = a \/ In (fold_left Z.min l a) l.
Proof.
  induction l as [|x l IH]; intro a; cbn [fold_left]; [left; reflexivity|].
  destruct (IH (Z.min a x)) as [H|H]; [|right; right; exact H].
  rewrite H. destruct (Z.min_spec a x) as [[_ ->]|[_ ->]];
    [left; reflexivity | right; left; reflexivity].
Qed.

Lemma fold_max_ge l : forall a,
  a <= fold_left Z.max l a /\ Forall (fun x => x <= fold_left Z.max l a) l.
Proof.
  induction l as [|x l IH]; intro a; cbn [fold_left]; [split; [lia|constructor]|].
  destruct (IH (Z.max a x)) as [H1 H2].
  split; [lia|]. constructor; [lia | exact H2].
Qed.

Lemma fold_max_attained l : forall a,
  fold_left Z.max l a = a \/ In (fold_left Z.max l a) l.
Proof.
  induction l as [|x l IH]; intro a; cbn [fold_left]; [left; reflexivity|].
  destruct (IH (Z.max a x)) as [H|H]; [|right; right; exact H].
  rewrite H. destruct (Z.max_spec a x) as [[_ ->]|[_ ->]];
    [right; left; reflexivity | left; reflexivity].
Qed.

(** [minimum] is a lower bound that some exchange attains. *)
Lemma minimum_spec key d0 rest :
  (forall d, In d (d0 :: rest) -> minimum key d0 rest <= key d)
  /\ exists d, In d (d0 :: rest) /\ key d = minimum key d0 rest.
Proof.
  unfold minimum. split.
  - destruct (fold_min_le (map key rest) (key d0)) as [H0 Hall].
    intros d [<-|Hd]; [exact H0|].
    rewrite Forall_forall in Hall. apply Hall, in_map, Hd.
  - destruct (fold_min_attained (map key rest) (key d0)) as [H|H].
    + exists d0. split; [left; reflexivity | symmetry; exact H].
    + apply in_map_iff in H. destruct H as [d [Hk Hd]].
      exists d. split; [right; exact Hd | exact Hk].
Qed.

(** [maximum] is an upper bound that some exchange attains. *)
Lemma maximum_spec key d0 rest :
  (forall d, In d (d0 :: rest) -> key d <= maximum key d0 rest)
  /\ exists d, In d (d0 :: rest) /\ key d = maximum key d0 rest.
Proof.
  unfold maximum. split.
  - destruct (fold_max_ge (map key rest) (key d0)) as [H0 Hall].
    intros d [<-|Hd]; [exact H0|].
    rewrite Forall_forall in Hall. apply Hall, in_map, Hd.
  - destruct (fold_max_attained (map key rest) (key d0)) as [H|H].
    + exists d0. split; [left; reflexivity | symmetry; exact H].
    + apply in_map_iff in H. destruct H as [d [Hk Hd]].
      exists d. split; [right; exact Hd | exact Hk].
Qed.

Lemma last_cons_default {A} (rest : list A) : forall d1 d0,
  last (d1 :: rest) d0 = last rest d1.
Proof.
  induction rest as [|x rest IH]; intros d1 d0; [reflexivity|].
  change (last (d1 :: x :: rest) d0) with (last (x :: rest) d0).
  rewrite (IH x d0), (IH x d1). reflexivity.
Qed.

(** In an ascending list the last element is the greatest. *)
Lemma ascending_last {A} (key : A -> Z) rest : forall d0,
  ascending key (d0 :: rest) ->
  In (last rest d0) (d0 :: rest)
  /\ forall d, In d (d0 :: rest) -> key d <= key (last rest d0).
Proof.
  unfold ascending. induction rest as [|d1 rest IH]; intros d0 Hs.
  - cbn [last]. split; [left; reflexivity|].
    intros d [<-|[]]. lia.
  - inversion Hs as [|? ? Hs' Hall]; subst.
    destruct (IH d1 Hs') as [Hin Hle].
    pose proof (last_cons_default rest d1 d0) as Hlast.
    rewrite Hlast. split; [right; exact Hin|].
    intros d [<-|Hd]; [|apply Hle; exact Hd].
    rewrite Forall_forall in Hall.
    specialize (Hall (last rest d1) Hin). exact Hall.
Qed.

(** The summary of the specification, read field by field. *)
Lemma summary_of_meaning ds cid s :
  summary_of ds cid = Some s ->
  ConversationSummary.conversation_id s = cid
  /\ ConversationSummary.message_count s = List.length (exchanges_of cid ds)
  /\ (exists d1, In d1 (exchanges_of cid ds)
        /\ ConversationSummary.first_message s = Some (Doc.user_message d1)
        /\ forall d, In d (exchanges_of cid ds) ->
                     Doc.timestamp d1 <= Doc.timestamp d)
  /\ (exists dn, In dn (exchanges_of cid ds)
        /\ ConversationSummary.last_message s = Some (Doc.user_message dn)
        /\ forall d, In d (exchanges_of cid ds) ->
                     Doc.timestamp d <= Doc.timestamp dn)
  /\ (exists dc, In dc (exchanges_of cid ds)
        /\ ConversationSummary.created_at s = Some (Doc.created_at dc)
        /\ forall d, In d (exchanges_of cid ds) ->
                     Doc.created_at dc <= Doc.created_at d)
  /\ (exists du, In du (exchanges_of cid ds)
        /\ ConversationSummary.updated_at s = Some (Doc.timestamp du)
        /\ forall d, In d (exchanges_of cid ds) ->
                     Doc.timestamp d <= Doc.timestamp du).
Proof.
  unfold summary_of, chronological.
  pose proof (sort_by_ascending Doc.timestamp (exchanges_of cid ds)) as Hasc.
  pose proof (sort_by_length Doc.timestamp (exchanges_of cid ds)) as Hlen.
  assert (Hin : forall d, In d (sort_by Doc.timestamp (exchanges_of cid ds))
                          <-> In d (exchanges_of cid ds))
    by (intro d; apply sort_by_In).
  destruct (sort_by Doc.timestamp (exchanges_of cid ds)) as [|d0 rest];
    [discriminate|].
  intro H. injection H as <-.
  cbn [ConversationSummary.conversation_id ConversationSummary.message_count
       ConversationSummary.first_message ConversationSummary.last_message
       ConversationSummary.created_at ConversationSummary.updated_at].
  split; [reflexivity|]. split; [exact Hlen|].
  split.
  { exists d0. split; [apply Hin; left; reflexivity|].
    split; [reflexivity|]. intros d Hd. apply Hin in Hd.
    unfold ascending in Hasc. inversion Hasc as [|? ? _ Hall]; subst.
    destruct Hd as [<-|Hd]; [lia|].
    rewrite Forall_forall in Hall. apply Hall. exact Hd. }
  destruct (ascending_last Doc.timestamp rest d0 Hasc) as [Hl1 Hl2].
  split.
  { exists (last rest d0). split; [apply Hin; exact Hl1|].
    split; [reflexivity|]. intros d Hd. apply Hl2, Hin. exact Hd. }
  split.
  - destruct (minimum_spec Doc.created_at d0 rest) as [Hle [dc [Hdc Heq]]].
    exists dc. split; [apply Hin; exact Hdc|]. rewrite Heq.
    split; [reflexivity|]. intros d Hd. apply Hle, Hin. exact Hd.
  - destruct (maximum_spec Doc.timestamp d0 rest) as [Hle [du [Hdu Heq]]].
    exists du. split; [apply Hin; exact Hdu|]. rewrite Heq.
    split; [reflexivity|]. intros d Hd. apply Hle, Hin. exact Hd.
Qed.

Lemma StronglySorted_firstn {A} (R : A -> A -> Prop) n : forall l,
  StronglySorted R l -> StronglySorted R (firstn n l).
Proof.
  induction n as [|n IH]; intros l Hs; [constructor|].
  destruct l as [|x l]; [constructor|]. cbn [firstn].
  inversion Hs as [|? ? Hl Hx]; subst.
  constructor; [apply IH; exact Hl|].
  apply Forall_forall. intros y Hy.
  rewrite Forall_forall in Hx. apply Hx. eapply firstn_In. exact Hy.
Qed.

End SummaryMeaning.

(** C7: over a reachable store whose conversation ids are non-empty, and
    with a limit of at least 1, [get_conversation_summaries] returns the
    first [limit] entries of a list [all] that is sorted by [updated_at]
    descending and holds, once for each conversation id of the store, the
    summary of that conversation: first and last user message in
    chronological order, number of exchange documents, least
    [created_at], greatest [timestamp]. *)
Theorem summaries_grouped_sorted_truncated E limit w :
  no_faults E ->
  1 <= limit ->
  (forall d, In d (docs w) -> Doc.conversation_id d <> "") ->
  exists all w',
    ChatService.get_conversation_summaries E limit w
    = (Ok (firstn (Z.to_nat limit) all), w')
    /\ (forall s, In s all ->
          Reading.summary_of (docs w) (ConversationSummary.conversation_id s)
          = Some s)
    /\ (forall d, In d (docs w) ->
          exists s, In s all
             /\ ConversationSummary.conversation_id s = Doc.conversation_id d
             /\ ConversationSummary.message_count s
                = List.length (Reading.exchanges_of (Doc.conversation_id d)
                                                    (docs w)))
    /\ NoDup (map ConversationSummary.conversation_id all)
    /\ StronglySorted Reading.newer_first all
    /\ StronglySorted Reading.newer_first (firstn (Z.to_nat limit) all).
Proof.
  intros Hnf Hlimit Hids.
  destruct (get_conversation_summaries_no_fault E limit w Hnf Hlimit)
    as [w' Hrun].
  assert (Hnonempty : Forall (fun g => Mongo._id g <> "")
                             (Mongo.sorted_groups (docs w))).
  { apply Forall_forall. intros g Hg.
    destruct (sorted_groups_summary g _ Hg) as [_ [d [Hd Hid]]].
    rewrite <- Hid. apply Hids. exact Hd. }
  assert (Hloop :
    ChatService.summaries_loop
      (firstn (Z.to_nat limit) (Mongo.sorted_groups (docs w)))
    = firstn (Z.to_nat limit)
             (map ChatService.summary_of_group (Mongo.sorted_groups (docs w)))).
  { rewrite summaries_loop_map.
    - symmetry. apply firstn_map.
    - apply Forall_forall. intros g Hg. apply firstn_In in Hg.
      rewrite Forall_forall in Hnonempty. apply Hnonempty. exact Hg. }
  exists (map ChatService.summary_of_group (Mongo.sorted_groups (docs w))), w'.
  split; [rewrite Hrun, Hloop; reflexivity|].
  assert (Hsum : forall s,
            In s (map ChatService.summary_of_group
                      (Mongo.sorted_groups (docs w))) ->
            Reading.summary_of (docs w) (ConversationSummary.conversation_id s)
            = Some s).
  { intros s Hs. apply in_map_iff in Hs. destruct Hs as [g [<- Hg]].
    apply (sorted_groups_summary g _ Hg). }
  split; [exact Hsum|]. split.
  { intros d Hd.
    destruct (sorted_groups_complete _ d Hd) as [g [Hg Hid]].
    exists (ChatService.summary_of_group g).
    assert (Hin : In (ChatService.summary_of_group g)
                     (map ChatService.summary_of_group
                          (Mongo.sorted_groups (docs w))))
      by (apply in_map; exact Hg).
    split; [exact Hin|]. split; [exact Hid|].
    destruct (summary_of_meaning _ _ _ (Hsum _ Hin)) as [_ [Hcount _]].
    rewrite Hcount. cbn [ChatService.summary_of_group
                         ConversationSummary.conversation_id].
    rewrite Hid. reflexivity. }
  split.
  { rewrite map_map. cbn [ChatService.summary_of_group
                          ConversationSummary.conversation_id].
    apply sorted_groups_NoDup. }
  split; [apply sorted_groups_newer_first|].
  apply StronglySorted_firstn, sorted_groups_newer_first.
Qed.

Lemma summaries_grouped_sorted_truncated_witness :
  exists all w',
    ChatService.get_conversation_summaries Sample.env_ok 1
      (Sample.fresh [Sample.exchange "a" "a1" "x" 1;
                     Sample.exchange "b" "b1" "y" 2;
                     Sample.exchange "a" "a2" "z" 3;
                     Sample.exchange "b" "b0" "y" 0])
    = (Ok (firstn 1 all), w')
    /\ NoDup (map ConversationSummary.conversation_id all)
    /\ StronglySorted Reading.newer_first all.
Proof.
  assert (Hnf : no_faults Sample.env_ok) by (intros n op; reflexivity).
  destruct (summaries_grouped_sorted_truncated Sample.env_ok 1
              (Sample.fresh [Sample.exchange "a" "a1" "x" 1;
                             Sample.exchange "b" "b1" "y" 2;
                             Sample.exchange "a" "a2" "z" 3;
                             Sample.exchange "b" "b0" "y" 0]) Hnf)
    as [all [w' [Hrun [_ [_ [Hnd [Hs _]]]]]]].
  - lia.
  - intros d [<-|[<-|[<-|[<-|[]]]]]; discriminate.
  - exists all, w'. split; [exact Hrun|]. split; [exact Hnd | exact Hs].
Defined.

(** The same store evaluated: with limit 1 only the most recently
    updated conversation is returned, with its two exchanges counted
    once each. *)
Example summaries_of_two_conversations :
  fst (ChatService.get_conversation_summaries Sample.env_ok 1
         (Sample.fresh [Sample.exchange "a" "a1" "x" 1;
                        Sample.exchange "b" "b1" "y" 2;
                        Sample.exchange "a" "a2" "z" 3;
                        Sample.exchange "b" "b0" "y" 0]))
  = Ok [ConversationSummary.mk "a" (Some "a1") (Some "a2") 2
                               (Some 1) (Some 3)]
  /\ fst (ChatService.get_conversation_summaries Sample.env_ok 20
            (Sample.fresh [Sample.exchange "a" "a1" "x" 1;
                           Sample.exchange "b" "b1" "y" 2;
                           Sample.exchange "a" "a2" "z" 3;
                           Sample.exchange "b" "b0" "y" 0]))
     = Ok [ConversationSummary.mk "a" (Some "a1") (Some "a2") 2
                                  (Some 1) (Some 3);
           ConversationSummary.mk "b" (Some "b0") (Some "b1") 2
                                  (Some 0) (Some 2)].
Proof. split; vm_compute; reflexivity. Qed.

(* ================================================================== *)
(** * Further properties of the code *)

(* ------------------------------------------------------------------ *)
(** ** Validators and helpers *)

Section TextFacts.
Import PyText Shapes InputValidators Helpers.

Lemma lstrip_spaces pre s :
  all_space pre = true -> lstrip (pre ++ s) = lstrip s.
Proof.
  induction pre as [|c pre IH]; intro H; [reflexivity|].
  cbn [all_space] in H. apply andb_true_iff in H. destruct H as [Hc H].
  cbn [append lstrip]. rewrite Hc. apply IH. exact H.
Qed.

Lemma rstrip_all_space post : all_space post = true -> rstrip post = "".
Proof.
  induction post as [|c post IH]; intro H; [reflexivity|].
  cbn [all_space] in H. apply andb_true_iff in H. destruct H as [Hc H].
  cbn [rstrip]. rewrite (IH H), Hc. reflexivity.
Qed.

Lemma rstrip_spaces s post :
  all_space post = true -> rstrip (s ++ post) = rstrip s.
Proof.
  intro H. induction s as [|c s IH]; [apply rstrip_all_space; exact H|].
  cbn [append rstrip]. rewrite IH. reflexivity.
Qed.

Lemma lstrip_all_space s : all_space s = true -> lstrip s = "".
Proof.
  induction s as [|c s IH]; intro H; [reflexivity|].
  cbn [all_space] in H. apply andb_true_iff in H. destruct H as [Hc H].
  cbn [lstrip]. rewrite Hc. apply IH. exact H.
Qed.

(** White space around a text does not change what [strip] returns. *)
Lemma strip_padding pre s post :
  all_space pre = true -> all_space post = true ->
  strip (pre ++ s ++ post) = strip s.
Proof.
  intros Hpre Hpost. unfold strip. rewrite (lstrip_spaces pre _ Hpre).
  induction s as [|c s IH].
  - cbn [append lstrip]. rewrite (lstrip_all_space post Hpost). reflexivity.
  - cbn [append lstrip]. destruct (is_space c); [exact IH|].
    change (String c (s ++ post)) with (String c s ++ post).
    apply rstrip_spaces. exact Hpost.
Qed.

Lemma append_nonempty pre s post : s <> "" -> pre ++ s ++ post <> "".
Proof.
  intros Hs H. destruct pre; [|discriminate H].
  destruct s; [congruence | discriminate H].
Qed.

(** X1: white space before and after a message does not count: the
    padded message is judged exactly as the message itself, for every
    pair of bounds.  A message of white space only is rejected as soon
    as the lower bound is at least 1. *)
Theorem validate_message_ignores_padding pre s post lo hi :
  all_space pre = true -> all_space post = true ->
  (s <> "" ->
   validate_message (pre ++ s ++ post) lo hi = validate_message s lo hi)
  /\ (all_space s = true -> 1 <= lo ->
      fst (validate_message (pre ++ s ++ post) lo hi) = false).
Proof.
  intros Hpre Hpost. split.
  - intro Hs. unfold validate_message.
    rewrite (strip_padding pre s post Hpre Hpost).
    pose proof (append_nonempty pre s post Hs) as Hne.
    destruct (pre ++ s ++ post); [congruence|].
    destruct s; [congruence | reflexivity].
  - intros Hall Hlo. unfold validate_message.
    destruct (py_not (pre ++ s ++ post)); [reflexivity|].
    rewrite (strip_padding pre s post Hpre Hpost). unfold strip.
    rewrite (lstrip_all_space s Hall). cbn [rstrip String.length Z.of_nat].
    destruct (Z.ltb_spec 0 lo); [reflexivity | lia].
Qed.

Lemma validate_message_ignores_padding_witness :
  validate_message "  hello " 1 5000 = (true, None)
  /\ fst (validate_message "   " 1 5000) = false.
Proof.
  destruct (validate_message_ignores_padding "  " "hello" " " 1 5000
              eq_refl eq_refl) as [H1 _].
  destruct (validate_message_ignores_padding "" "   " "" 1 5000
              eq_refl eq_refl) as [_ H2].
  split; [exact (H1 ltac:(discriminate))|].
  exact (H2 eq_refl ltac:(lia)).
Defined.

End TextFacts.

Section SanitizeFacts.
Import PyText Shapes InputValidators Helpers.

Lemma occurs_remove_char c x s :
  occurs c (remove_char x s) -> occurs c s /\ c <> x.
Proof.
  induction s as [|a s IH]; cbn [remove_char occurs]; [tauto|].
  destruct (Ascii.eqb_spec a x) as [Hax|Hax].
  - intro H. destruct (IH H). tauto.
  - cbn [occurs]. intros [H|H]; [subst; tauto|].
    destruct (IH H). tauto.
Qed.

Lemma occurs_collapse_spaces c s : forall b,
  occurs c (collapse_spaces b s) -> is_space c = true -> c = " "%char.
Proof.
  induction s as [|a s IH]; intros b H Hc; [destruct H|].
  cbn [collapse_spaces] in H.
  destruct (is_space a) eqn:Ha.
  - destruct b; [exact (IH _ H Hc)|].
    destruct H as [H|H]; [symmetry; exact H | exact (IH _ H Hc)].
  - destruct H as [H|H]; [congruence | exact (IH _ H Hc)].
Qed.

Lemma rstrip_no_space s :
  (forall c, occurs c s -> is_space c = false) -> rstrip s = s.
Proof.
  induction s as [|a s IH]; intro H; [reflexivity|].
  cbn [rstrip]. rewrite IH by (intros c Hc; apply H; right; exact Hc).
  destruct s; [|reflexivity].
  rewrite (H a (or_introl eq_refl)). reflexivity.
Qed.

Lemma collapse_no_space s :
  (forall c, occurs c s -> is_space c = false) ->
  collapse_spaces false s = s.
Proof.
  induction s as [|a s IH]; intro H; [reflexivity|].
  cbn [collapse_spaces]. rewrite (H a (or_introl eq_refl)).
  rewrite IH by (intros c Hc; apply H; right; exact Hc). reflexivity.
Qed.

Lemma remove_char_absent x s :
  (forall c, occurs c s -> c <> x) -> remove_char x s = s.
Proof.
  induction s as [|a s IH]; intro H; [reflexivity|].
  cbn [remove_char].
  destruct (Ascii.eqb_spec a x) as [Hax|_];
    [exfalso; exact (H a (or_introl eq_refl) Hax)|].
  rewrite IH by (intros c Hc; apply H; right; exact Hc). reflexivity.
Qed.

(** X2: what [sanitize_input] returns holds no NUL and no white space
    other than the space itself (no tab, no line feed); a text without
    white space and without NUL comes back unchanged.  Removing NUL after
    the runs were collapsed can leave two spaces side by side, so
    sanitizing twice is not sanitizing once. *)
Theorem sanitize_input_output text :
  (forall c, occurs c (sanitize_input text) ->
             c <> NUL /\ (is_space c = true -> c = " "%char))
  /\ ((forall c, occurs c text -> is_space c = false /\ c <> NUL) ->
      sanitize_input text = text)
  /\ ~ (forall t, sanitize_input (sanitize_input t) = sanitize_input t).
Proof.
  split; [|split].
  - intros c H. unfold sanitize_input in H.
    destruct (py_not text); [destruct H|].
    apply occurs_remove_char in H. destruct H as [H Hn].
    split; [exact Hn|]. intro Hc.
    exact (occurs_collapse_spaces c _ false H Hc).
  - intro H. unfold sanitize_input, strip.
    destruct text as [|a text]; [reflexivity|]. cbn [py_not].
    assert (Hs : forall c, occurs c (String a text) -> is_space c = false)
      by (intros c Hc; apply H; exact Hc).
    cbn [lstrip]. rewrite (Hs a (or_introl eq_refl)).
    rewrite (rstrip_no_space _ Hs), (collapse_no_space _ Hs).
    apply remove_char_absent. intros c Hc. apply H. exact Hc.
  - intro Hidem.
    specialize (Hidem (String "a" (String " " (String NUL
                         (String " " (String "b" "")))))).
    vm_compute in Hidem. discriminate Hidem.
Qed.

Lemma sanitize_input_output_witness :
  sanitize_input "conv_42" = "conv_42".
Proof.
  apply (proj1 (proj2 (sanitize_input_output "conv_42"))).
  intros c Hc. cbn [occurs] in Hc.
  repeat (destruct Hc as [<-|Hc]; [split; [reflexivity | discriminate]|]).
  destruct Hc.
Defined.

Lemma substring_length n : forall s,
  String.length (String.substring 0 n s) = Nat.min n (String.length s).
Proof.
  induction n as [|n IH]; intros [|c s]; cbn [String.substring String.length];
    try reflexivity.
  rewrite IH. reflexivity.
Qed.

Lemma append_length s t :
  String.length (s ++ t) = (String.length s + String.length t)%nat.
Proof.
  induction s as [|c s IH]; [reflexivity|].
  cbn [append String.length]. rewrite IH. reflexivity.
Qed.

(** X3: for a limit of at least 3, [truncate_text] never returns more
    than [max_length] characters: a text within the limit comes back
    unchanged, a longer one is cut to its first [max_length - 3]
    characters followed by three dots, [max_length] characters in all. *)
Theorem truncate_text_length text max_length :
  3 <= max_length ->
  (Z.of_nat (String.length text) <= max_length ->
   truncate_text text max_length = text)
  /\ (max_length < Z.of_nat (String.length text) ->
      truncate_text text max_length
      = String.substring 0 (Z.to_nat (max_length - 3)) text ++ "..."
      /\ Z.of_nat (String.length (truncate_text text max_length))
         = max_length)
  /\ Z.of_nat (String.length (truncate_text text max_length)) <= max_length.
Proof.
  intro H3. unfold truncate_text, slice_to.
  destruct (Z.leb_spec (Z.of_nat (String.length text)) max_length) as [Hle|Hgt].
  - split; [reflexivity|]. split; [lia | exact Hle].
  - destruct (Z.ltb_spec (max_length - 3) 0) as [Hneg|_]; [lia|].
    assert (Hlen : Z.of_nat (String.length
                     (String.substring 0 (Z.to_nat (max_length - 3)) text
                      ++ "...")) = max_length).
    { rewrite append_length, substring_length. cbn [String.length]. lia. }
    split; [lia|]. split; [intros _; split; [reflexivity | exact Hlen]|].
    lia.
Qed.

Lemma truncate_text_length_witness :
  truncate_text "conversation" 8 = "conve..."
  /\ truncate_text "hi" 8 = "hi".
Proof.
  destruct (truncate_text_length "conversation" 8 ltac:(lia))
    as [_ [H1 _]].
  destruct (truncate_text_length "hi" 8 ltac:(lia)) as [H2 _].
  split; [exact (proj1 (H1 ltac:(cbn; lia))) | exact (H2 ltac:(cbn; lia))].
Defined.

Lemma hex_is_id_char c : is_hex_digit c = true -> Validators.id_char c = true.
Proof.
  unfold is_hex_digit, Validators.id_char, Validators.in_range.
  intro H. apply orb_true_iff in H.
  destruct H as [H|H]; apply andb_true_iff in H; destruct H as [H1 H2];
    apply Nat.leb_le in H1, H2.
  - replace ((48 <=? nat_of_ascii c)%nat && (nat_of_ascii c <=? 57)%nat)
      with true; [rewrite !orb_true_r; reflexivity|].
    symmetry. apply andb_true_iff. split; apply Nat.leb_le; lia.
  - replace ((97 <=? nat_of_ascii c)%nat && (nat_of_ascii c <=? 122)%nat)
      with true; [reflexivity|].
    symmetry. apply andb_true_iff. split; apply Nat.leb_le; lia.
Qed.

Lemma all_hex_id_chars h :
  all_hex h = true -> Validators.all_id_chars h = true.
Proof.
  induction h as [|c h IH]; intro H; [reflexivity|].
  cbn [all_hex] in H. apply andb_true_iff in H. destruct H as [Hc H].
  cbn [Validators.all_id_chars]. rewrite (hex_is_id_char c Hc), (IH H).
  reflexivity.
Qed.

(** X4: when the sixteen characters taken from the UUID are hexadecimal
    digits, the id that [generate_conversation_id] makes passes
    [validate_conversation_id]. *)
Theorem generated_conversation_id_is_valid E w :
  String.length (uuid_hex16 E (tick w)) = 16%nat ->
  all_hex (uuid_hex16 E (tick w)) = true ->
  exists c,
    generate_conversation_id E w = (Ok c, advance w)
    /\ c = "conv_" ++ uuid_hex16 E (tick w)
    /\ Validators.validate_conversation_id c = (true, None).
Proof.
  intros Hlen Hhex. eexists. split; [reflexivity|]. split; [reflexivity|].
  apply validate_conversation_id_complete.
  unfold Validators.id_format_ok.
  cbn [append py_not negb andb Validators.all_id_chars String.length].
  rewrite (all_hex_id_chars _ Hhex), Hlen. reflexivity.
Qed.

Lemma generated_conversation_id_is_valid_witness :
  exists c,
    generate_conversation_id Sample.env_ok (Sample.fresh [])
    = (Ok c, advance (Sample.fresh []))
    /\ Validators.validate_conversation_id c = (true, None).
Proof.
  destruct (generated_conversation_id_is_valid Sample.env_ok (Sample.fresh [])
              eq_refl eq_refl) as [c [H1 [_ H2]]].
  exists c. split; [exact H1 | exact H2].
Defined.

End SanitizeFacts.

(* ------------------------------------------------------------------ *)
(** ** What touches the collection *)

Section FrameFacts.
Import Frame ChatService.

Lemma keeps_ret {A} (a : A) : keeps_docs (ret a).
Proof. intro w. reflexivity. Qed.

Lemma keeps_raise {A} e : keeps_docs (@raise A e).
Proof. intro w. reflexivity. Qed.

Lemma keeps_bind {A B} (m : M A) (k : A -> M B) :
  keeps_docs m -> (forall a, keeps_docs (k a)) -> keeps_docs (bind m k).
Proof.
  intros Hm Hk w. unfold bind. specialize (Hm w).
  destruct (m w) as [[a|e] w1]; cbn [snd] in *; [|exact Hm].
  rewrite (Hk a w1). exact Hm.
Qed.

Lemma keeps_try {A} (m : M A) h :
  keeps_docs m -> (forall e, keeps_docs (h e)) -> keeps_docs (try_except m h).
Proof.
  intros Hm Hh w. unfold try_except. specialize (Hm w).
  destruct (m w) as [[a|e] w1]; cbn [snd] in *; [exact Hm|].
  rewrite (Hh e w1). exact Hm.
Qed.

Lemma keeps_branch {A} (f : World -> bool) (m1 m2 : M A) :
  keeps_docs m1 -> keeps_docs m2 ->
  keeps_docs (fun w => if f w then m1 w else m2 w).
Proof. intros H1 H2 w. destruct (f w); [apply H1 | apply H2]. Qed.

Lemma keeps_ext E op : keeps_docs (ext E op).
Proof. intro w. reflexivity. Qed.

Lemma keeps_set_database b : keeps_docs (set_database b).
Proof. intro w. reflexivity. Qed.

Lemma keeps_set_conversations_collection b :
  keeps_docs (set_conversations_collection b).
Proof. intro w. reflexivity. Qed.

Lemma keeps_set_db_service b : keeps_docs (set_db_service b).
Proof. intro w. reflexivity. Qed.

Lemma keeps_set_chat_service b : keeps_docs (set_chat_service b).
Proof. intro w. reflexivity. Qed.

Lemma keeps_get_docs : keeps_docs get_docs.
Proof. intro w. reflexivity. Qed.

Lemma keeps_lift {A} (r : Result A) : keeps_docs (lift r).
Proof. intro w. reflexivity. Qed.

Lemma keeps_get_utc_now E : keeps_docs (get_utc_now E).
Proof. intro w. reflexivity. Qed.

Lemma keeps_generate_conversation_id E : keeps_docs (generate_conversation_id E).
Proof. intro w. reflexivity. Qed.

Lemma keeps_generate_response E m h : keeps_docs (generate_response E m h).
Proof. intro w. reflexivity. Qed.

Lemma keeps_get_database : keeps_docs DatabaseService.get_database.
Proof. intro w. reflexivity. Qed.

Lemma keeps_connect E : keeps_docs (DatabaseService.connect E).
Proof.
  unfold DatabaseService.connect. apply keeps_branch; [apply keeps_ret|].
  apply keeps_bind; [apply keeps_ext | intro; apply keeps_set_database].
Qed.

Lemma keeps_get_collection name :
  keeps_docs (DatabaseService.get_collection name).
Proof.
  unfold DatabaseService.get_collection.
  apply keeps_branch; [apply keeps_ret | apply keeps_raise].
Qed.

Lemma keeps__get_collection E : keeps_docs (_get_collection E).
Proof.
  unfold _get_collection. apply keeps_branch; [apply keeps_ret|].
  apply keeps_bind; [apply keeps_get_database|]. intro db.
  apply keeps_bind.
  - destruct db; [apply keeps_ret|].
    apply keeps_bind; [apply keeps_connect|]. intros _.
    apply keeps_bind; [apply keeps_get_database|]. intro db'.
    destruct db'; [apply keeps_ret | apply keeps_raise].
  - intros _. apply keeps_bind; [apply keeps_get_collection|]. intros _.
    apply keeps_set_conversations_collection.
Qed.

Lemma keeps_find E cid limit : keeps_docs (find E cid limit).
Proof.
  unfold find. apply keeps_bind; [apply keeps_ext|]. intros _.
  apply keeps_bind; [apply keeps_get_docs | intro; apply keeps_ret].
Qed.

Lemma keeps_get_conversation_history E cid limit :
  keeps_docs (get_conversation_history E cid limit).
Proof.
  unfold get_conversation_history.
  apply keeps_bind; [apply keeps_get_database|]. intro db.
  apply keeps_bind; [destruct db; [apply keeps_ret | apply keeps_connect]|].
  intros _. apply keeps_bind; [apply keeps__get_collection|]. intros _.
  apply keeps_bind; [apply keeps_find|]. intro cursor.
  apply keeps_bind; [apply keeps_lift|]. intros [[m c] u]. apply keeps_ret.
Qed.

Lemma keeps_summaries_body E limit : keeps_docs (summaries_body E limit).
Proof.
  unfold summaries_body.
  apply keeps_bind; [apply keeps_get_database|]. intros db w.
  assert (Hac : keeps_docs
                  (fun w => if db : bool then (Ok true, w)
                            else (DatabaseService.connect E ;;;
                                  DatabaseService.get_database) w)).
  { destruct db; [intro; reflexivity|].
    apply keeps_bind; [apply keeps_connect | intro; apply keeps_get_database]. }
  specialize (Hac w). cbv beta in Hac.
  destruct (if db then (Ok true, w)
            else (DatabaseService.connect E ;;; DatabaseService.get_database) w)
    as [[[|]|e] w1]; cbn [snd] in *; try exact Hac.
  rewrite <- Hac.
  apply (keeps_bind (_get_collection E)); [apply keeps__get_collection|].
  intros _. apply keeps_bind.
  - unfold count_documents. apply keeps_bind; [apply keeps_ext|]. intros _.
    apply keeps_bind; [apply keeps_get_docs | intro; apply keeps_ret].
  - intro count. destruct (count =? 0)%nat; [apply keeps_ret|].
    apply keeps_bind; [|intro; apply keeps_ret].
    unfold aggregate. apply keeps_bind; [apply keeps_ext|]. intros _.
    apply keeps_bind; [apply keeps_get_docs | intro; apply keeps_lift].
Qed.

Lemma keeps_get_conversation_summaries E limit :
  keeps_docs (get_conversation_summaries E limit).
Proof.
  unfold get_conversation_summaries.
  apply keeps_try; [apply keeps_summaries_body|].
  intro e. destruct (connection_issue e); apply keeps_ret.
Qed.

Lemma keeps_analyze_conversation E cid :
  keeps_docs (GapAnalysisService.analyze_conversation E cid).
Proof.
  unfold GapAnalysisService.analyze_conversation.
  apply keeps_try; [|intro; apply keeps_ret].
  apply keeps_bind; [apply keeps_get_conversation_history|]. intro h.
  destruct (ConversationHistory.messages h); apply keeps_ret.
Qed.

Lemma keeps_get_chat_service E : keeps_docs (get_chat_service E).
Proof.
  unfold get_chat_service. apply keeps_branch; [apply keeps_ret|].
  apply keeps_bind.
  - unfold DatabaseService.get_database_service.
    apply keeps_branch; [apply keeps_ret|].
    apply keeps_bind; [apply keeps_set_db_service | intro; apply keeps_connect].
  - intros _. apply keeps_bind.
    + destruct (String.eqb _ _); apply keeps_try;
        try apply keeps_ext; intro; apply keeps_ext.
    + intros _. apply keeps_bind;
        [apply keeps_set_conversations_collection
        |intro; apply keeps_set_chat_service].
Qed.

(** X5: the read paths never change the collection, whether they return
    or raise and whatever fails on the way: the history of a
    conversation, the summaries, and the gap analysis. *)
Theorem read_paths_keep_the_store E cid limit w :
  docs (snd (get_conversation_history E cid limit w)) = docs w
  /\ docs (snd (get_conversation_summaries E limit w)) = docs w
  /\ docs (snd (GapAnalysisService.analyze_conversation E cid w)) = docs w.
Proof.
  split; [apply keeps_get_conversation_history|].
  split; [apply keeps_get_conversation_summaries
         |apply keeps_analyze_conversation].
Qed.

End FrameFacts.

(* ------------------------------------------------------------------ *)
(** ** What the write path stores *)

Section WriteFacts.
Import Frame ChatService.

Lemma writes_after_keeps {A B} Q (m : M A) (k : A -> M B) :
  keeps_docs m -> (forall a, writes_one Q (k a)) -> writes_one Q (bind m k).
Proof.
  intros Hm Hk w. unfold bind. specialize (Hm w).
  destruct (m w) as [[a|e] w1]; cbn [snd] in Hm; [|exact Hm].
  specialize (Hk a w1). rewrite Hm in Hk. exact Hk.
Qed.

Lemma writes_insert_one E doc : writes_one (eq doc) (insert_one E doc).
Proof.
  intro w. unfold insert_one, bind, ext, get_docs, set_docs.
  destruct (fault E (tick w) OpInsert); cbn [docs advance]; [reflexivity|].
  exists doc. split; reflexivity.
Qed.

Lemma writes_one_weaken {A} (P Q : Doc.t -> Prop) (m : M A) :
  (forall d, P d -> Q d) -> writes_one P m -> writes_one Q m.
Proof.
  intros HPQ Hm w. specialize (Hm w).
  destruct (m w) as [[a|e] w1]; [|exact Hm].
  destruct Hm as [d [Hd HP]]. exists d. auto.
Qed.

Lemma writes__store_message E cid u a :
  writes_one (exchange_of cid u a) (_store_message E cid u a).
Proof.
  unfold _store_message.
  apply writes_after_keeps; [apply keeps_get_database|]. intro db.
  apply writes_after_keeps.
  { destruct db; [apply keeps_ret|].
    apply keeps_try; [|intro; apply keeps_raise].
    apply keeps_bind; [apply keeps_connect | intro; apply keeps_get_database]. }
  intro db'. apply writes_after_keeps;
    [destruct db'; [apply keeps_ret | apply keeps_raise]|].
  intros _. apply writes_after_keeps; [apply keeps__get_collection|].
  intros _. apply writes_after_keeps; [apply keeps_get_utc_now|].
  intro now. eapply writes_one_weaken; [|apply writes_insert_one].
  intros d <-. repeat split.
Qed.

(** X6: [_store_message] is all or nothing.  When it returns, exactly
    one document has been appended, and that document carries the given
    conversation id and texts, equal [created_at] and [timestamp], and
    the summed length of the two texts; when it raises, the collection
    is as it was. *)
Theorem store_message_all_or_nothing E cid u a w :
  match _store_message E cid u a w with
  | (Ok _, w') =>
      exists d, docs w' = (docs w ++ [d])%list
        /\ Doc.conversation_id d = cid
        /\ Doc.user_message d = u
        /\ Doc.assistant_message d = a
        /\ Doc.created_at d = Doc.timestamp d
        /\ Doc.message_length d = (String.length u + String.length a)%nat
  | (Raise _, w') => docs w' = docs w
  end.
Proof.
  pose proof (writes__store_message E cid u a w) as H.
  destruct (_store_message E cid u a w) as [[[]|e] w']; [|exact H].
  destruct H as [d [Hd [Hc [Hu [Ha [Hs Hl]]]]]].
  exists d. rewrite Hu, Ha in Hl. auto 10.
Qed.

Lemma keeps_resolve_conversation_id E cid :
  keeps_docs (resolve_conversation_id E cid).
Proof.
  unfold resolve_conversation_id.
  destruct cid as [c|]; [destruct (py_not c)|];
    try apply keeps_generate_conversation_id; apply keeps_ret.
Qed.

Lemma resolve_conversation_id_given E c w r w' :
  c <> "" -> resolve_conversation_id E (Some c) w = (r, w') ->
  r = Ok c /\ w' = w.
Proof.
  intros Hc H. unfold resolve_conversation_id in H.
  destruct c; [congruence|]. cbn in H. injection H as <- <-. auto.
Qed.

(** X7: [send_message] stores at most one exchange.  When it returns,
    the collection is unchanged or has gained one exchange made of the
    returned conversation id, the message and the returned response; a
    non-empty id given by the caller is the id returned.  When it raises,
    the exception is the provider's and nothing has been stored. *)
Theorem send_message_stores_at_most_one E message cid chat_history w :
  match send_message E message cid chat_history w with
  | (Ok r, w') =>
      (docs w' = docs w
       \/ exists d, docs w' = (docs w ++ [d])%list
            /\ Doc.conversation_id d = conversation_id r
            /\ Doc.user_message d = message
            /\ Doc.assistant_message d = response r)
      /\ (forall c, cid = Some c -> c <> "" -> conversation_id r = c)
  | (Raise e, w') =>
      docs w' = docs w
      /\ exists c w0,
           resolve_conversation_id E cid w = (Ok c, w0)
           /\ generate_response E message (history_of chat_history) w0
              = (Raise e, w')
  end.
Proof.
  unfold send_message. unfold bind at 1.
  pose proof (keeps_resolve_conversation_id E cid w) as Hk0.
  destruct (resolve_conversation_id_ok E cid w) as [c [w0 Hres]].
  rewrite Hres in *. cbn [snd] in Hk0.
  unfold bind at 1.
  pose proof (keeps_generate_response E message (history_of chat_history) w0)
    as Hk1.
  destruct (generate_response E message (history_of chat_history) w0)
    as [[r|e] w1] eqn:Hgen; cbn [snd] in Hk1.
  - unfold bind at 1. unfold try_except.
    pose proof (writes__store_message E c message r w1) as Hst.
    assert (Hid : forall c', cid = Some c' -> c' <> "" -> c = c').
    { intros c' -> Hc'.
      destruct (resolve_conversation_id_given E c' w _ _ Hc' Hres) as [H _].
      congruence. }
    destruct (_store_message E c message r w1) as [[[]|e] w2].
    + cbn. split; [|exact Hid]. right.
      destruct Hst as [d [Hd [Hc [Hu [Ha _]]]]].
      exists d. rewrite Hd, Hk1, Hk0. auto.
    + assert (Hh : (if connection_issue e then ret tt else ret tt) w2
                   = (Ok tt, w2)) by (destruct (connection_issue e); reflexivity).
      rewrite Hh. cbn. split; [|exact Hid]. left. congruence.
  - split; [congruence|]. exists c, w0. auto.
Qed.

End WriteFacts.

(* ------------------------------------------------------------------ *)
(** ** The shape of a history *)

Section ShapeFacts.
Import Frame ChatService Reading.

Lemma bind_Ok_inv {A B} (m : M A) (k : A -> M B) w b w' :
  bind m k w = (Ok b, w') ->
  exists a w1, m w = (Ok a, w1) /\ k a w1 = (Ok b, w').
Proof.
  unfold bind. destruct (m w) as [[a|e] w1]; [|discriminate].
  intro H. exists a, w1. auto.
Qed.

Lemma new_message_Ok_inv role content ts m :
  ChatMessage.new role content ts = Ok m -> content <> "".
Proof.
  unfold ChatMessage.new. intros H ->.
  rewrite andb_false_r in H. discriminate H.
Qed.

Lemma history_loop_Ok_texts cursor : forall acc res,
  history_loop cursor acc = Ok res ->
  Forall (fun d => texts_present d = true) cursor.
Proof.
  induction cursor as [|d cursor IH]; intros [[msgs c] u] res H;
    [constructor|].
  cbn [history_loop] in H.
  destruct (history_step (msgs, c, u) d) as [acc'|e] eqn:Hstep;
    [|discriminate H].
  constructor; [|exact (IH _ _ H)].
  unfold history_step in Hstep.
  destruct (ChatMessage.new "user" _ _) as [mu|] eqn:Hu; [|discriminate].
  destruct (ChatMessage.new "assistant" _ _) as [ma|] eqn:Ha; [|discriminate].
  apply new_message_Ok_inv in Hu, Ha. unfold texts_present.
  destruct (Doc.user_message d); [congruence|].
  destruct (Doc.assistant_message d); [congruence | reflexivity].
Qed.

Lemma with_role_user_two ds :
  List.length (GapAnalysisService.with_role "user" (flat_map two_messages ds))
  = List.length ds.
Proof.
  induction ds as [|d ds IH]; [reflexivity|].
  cbn [flat_map two_messages app GapAnalysisService.with_role filter
       ChatMessage.role String.eqb Ascii.eqb Bool.eqb List.length].
  cbn. f_equal. exact IH.
Qed.

Lemma with_role_assistant_two ds :
  List.length (GapAnalysisService.with_role "assistant"
                 (flat_map two_messages ds))
  = List.length ds.
Proof.
  induction ds as [|d ds IH]; [reflexivity|].
  cbn. f_equal. exact IH.
Qed.

Lemma fold_last_timestamp ds : forall u,
  fold_left (fun _ d => Some (Doc.timestamp d)) ds u
  = match rev ds with
    | [] => u
    | d :: _ => Some (Doc.timestamp d)
    end.
Proof.
  induction ds as [|d ds IH] using rev_ind; intro u; [reflexivity|].
  rewrite fold_left_app, rev_app_distr. reflexivity.
Qed.

(** What a returned history is made of, whatever happened on the way. *)
Lemma get_conversation_history_Ok_inv E cid limit w h w' :
  get_conversation_history E cid limit w = (Ok h, w') ->
  history_loop (Mongo.find_sorted cid limit (docs w)) ([], None, None)
  = Ok (ConversationHistory.messages h, ConversationHistory.created_at h,
        ConversationHistory.updated_at h)
  /\ ConversationHistory.conversation_id h = cid
  /\ ConversationHistory.message_count h
     = List.length (ConversationHistory.messages h).
Proof.
  unfold get_conversation_history. intro H.
  apply bind_Ok_inv in H. destruct H as [db [w1 [H1 H]]].
  apply bind_Ok_inv in H. destruct H as [[] [w2 [H2 H]]].
  apply bind_Ok_inv in H. destruct H as [[] [w3 [H3 H]]].
  apply bind_Ok_inv in H. destruct H as [cursor [w4 [H4 H]]].
  apply bind_Ok_inv in H. destruct H as [[[m c] u] [w5 [H5 H]]].
  assert (Hd : docs w3 = docs w).
  { pose proof (keeps_get_database w) as K1. rewrite H1 in K1.
    assert (K2 : docs w2 = docs w1).
    { destruct db.
      - injection H2 as <-. reflexivity.
      - pose proof (keeps_connect E w1) as K. rewrite H2 in K. exact K. }
    pose proof (keeps__get_collection E w2) as K3. rewrite H3 in K3.
    cbn [snd] in *. congruence. }
  unfold find in H4.
  apply bind_Ok_inv in H4. destruct H4 as [[] [w4a [H4a H4]]].
  pose proof (keeps_ext E OpFind w3) as K4. rewrite H4a in K4.
  cbn [snd] in K4. unfold bind, get_docs, ret in H4.
  injection H4 as <- <-.
  unfold lift in H5. injection H5 as H5 <-.
  unfold ret in H. injection H as <- <-.
  cbn [ConversationHistory.messages ConversationHistory.created_at
       ConversationHistory.updated_at ConversationHistory.conversation_id
       ConversationHistory.message_count].
  rewrite <- Hd, <- K4. auto.
Qed.

(** X8: every history that [get_conversation_history] returns is made
    of whole exchanges: its messages are the two messages of each
    exchange the query selected, so there are as many user messages as
    assistant messages, [message_count] is even, and with a limit of at
    least 1 it is at most twice the limit.  [created_at] is taken from
    the first selected exchange and [updated_at] from the last. *)
Theorem history_is_made_of_exchanges E cid limit w h w' :
  get_conversation_history E cid limit w = (Ok h, w') ->
  let ds := Mongo.find_sorted cid limit (docs w) in
  ConversationHistory.messages h = flat_map two_messages ds
  /\ ConversationHistory.message_count h = (2 * List.length ds)%nat
  /\ List.length (GapAnalysisService.with_role "user"
                    (ConversationHistory.messages h)) = List.length ds
  /\ List.length (GapAnalysisService.with_role "assistant"
                    (ConversationHistory.messages h)) = List.length ds
  /\ (1 <= limit ->
      (ConversationHistory.message_count h <= 2 * Z.to_nat limit)%nat)
  /\ ConversationHistory.created_at h = hd_error (map Doc.created_at ds)
  /\ ConversationHistory.updated_at h
     = hd_error (rev (map Doc.timestamp ds)).
Proof.
  intros H ds.
  destruct (get_conversation_history_Ok_inv _ _ _ _ _ _ H) as [Hl [_ Hc]].
  fold ds in Hl.
  pose proof (history_loop_Ok_texts _ _ _ Hl) as Ht.
  rewrite (history_loop_ok ds [] None None Ht) in Hl.
  cbn [app] in Hl. injection Hl as Hm Hcr Hup.
  rewrite Hc, <- Hm, flat_map_two_messages_length.
  rewrite with_role_user_two, with_role_assistant_two.
  repeat split; auto.
  - intro Hlim. subst ds. unfold Mongo.find_sorted, Mongo.cursor_limit.
    destruct (Z.eqb_spec limit 0); [lia|].
    rewrite length_firstn, Zabs2Nat.abs_nat_nonneg by lia. lia.
  - rewrite <- Hup, fold_last_timestamp, <- map_rev.
    destruct (rev ds); reflexivity.
Qed.

Lemma history_is_made_of_exchanges_witness :
  exists h w',
    get_conversation_history Sample.env_ok "c1" 50
      (Sample.fresh [Sample.exchange "c1" "hi" "hello" 7;
                     Sample.exchange "c2" "x" "y" 8;
                     Sample.exchange "c1" "how?" "so" 9]) = (Ok h, w')
    /\ ConversationHistory.message_count h = 4%nat
    /\ ConversationHistory.created_at h = Some 7
    /\ ConversationHistory.updated_at h = Some 9.
Proof.
  eexists. eexists.
  pose proof (history_is_made_of_exchanges Sample.env_ok "c1" 50
                (Sample.fresh [Sample.exchange "c1" "hi" "hello" 7;
                               Sample.exchange "c2" "x" "y" 8;
                               Sample.exchange "c1" "how?" "so" 9])
                _ _ eq_refl) as [_ [H2 [_ [_ [_ [H6 H7]]]]]].
  split; [reflexivity|]. split; [exact H2|]. split; [exact H6 | exact H7].
Defined.

Lemma find_sorted_none cid limit ds :
  (forall d, In d ds -> Doc.conversation_id d <> cid) ->
  Mongo.find_sorted cid limit ds = [].
Proof.
  intro H. unfold Mongo.find_sorted.
  rewrite (filter_none (Mongo.matches cid) ds)
    by (intros d Hd; apply matches_false_iff; auto).
  unfold Mongo.cursor_limit. cbn [Mongo.sort_by].
  destruct (limit =? 0); [reflexivity | apply firstn_nil].
Qed.

(** X9: over a reachable store, the history of an id without exchanges
    is the empty history, not an error, and its analysis has status
    "empty"; in particular this is what is read back after
    [delete_conversation] of that id. *)
Theorem history_after_delete_is_empty E cid limit w :
  no_faults E ->
  ((forall d, In d (docs w) -> Doc.conversation_id d <> cid) ->
   (exists w', get_conversation_history E cid limit w
               = (Ok (ConversationHistory.mk cid [] None None 0), w'))
   /\ (exists w', GapAnalysisService.analyze_conversation E cid w
                  = (Ok (GapAnalysisService.empty_analysis cid), w')))
  /\ exists b w1 w2,
       delete_conversation E cid w = (Ok b, w1)
       /\ get_conversation_history E cid limit w1
          = (Ok (ConversationHistory.mk cid [] None None 0), w2).
Proof.
  intro Hnf.
  assert (Hempty : forall lim w0,
            (forall d, In d (docs w0) -> Doc.conversation_id d <> cid) ->
            exists w', get_conversation_history E cid lim w0
                       = (Ok (ConversationHistory.mk cid [] None None 0), w')).
  { intros lim w0 Hnone.
    destruct (get_conversation_history_no_fault E cid lim w0 Hnf)
      as [w' [Hget _]].
    rewrite (find_sorted_none cid lim _ Hnone) in Hget.
    exists w'. exact Hget. }
  split.
  - intro Hnone. split; [apply Hempty; exact Hnone|].
    destruct (Hempty 50 w Hnone) as [w' Hh]. exists w'.
    unfold GapAnalysisService.analyze_conversation, try_except, bind.
    rewrite Hh. reflexivity.
  - destruct (delete_conversation_no_fault E cid w Hnf) as [w1 [Hdel Hd]].
    destruct (Hempty limit w1) as [w2 Hh].
    { intros d Hin. rewrite Hd in Hin. apply filter_In in Hin.
      destruct Hin as [_ Hin]. apply negb_true_iff in Hin.
      apply matches_false_iff. exact Hin. }
    eexists. exists w1, w2. split; [exact Hdel | exact Hh].
Qed.

Lemma history_after_delete_is_empty_witness :
  exists b w1 w2,
    delete_conversation Sample.env_ok "c1"
      (Sample.fresh [Sample.exchange "c1" "hi" "hello" 7]) = (Ok b, w1)
    /\ get_conversation_history Sample.env_ok "c1" 50 w1
       = (Ok (ConversationHistory.mk "c1" [] None None 0), w2).
Proof.
  assert (Hnf : no_faults Sample.env_ok) by (intros n op; reflexivity).
  exact (proj2 (history_after_delete_is_empty Sample.env_ok "c1" 50
                  (Sample.fresh [Sample.exchange "c1" "hi" "hello" 7]) Hnf)).
Defined.

Lemma filter_matches_other c c2 ds :
  c2 <> c ->
  filter (Mongo.matches c2)
         (filter (fun d => negb (Mongo.matches c d)) ds)
  = filter (Mongo.matches c2) ds.
Proof.
  intro Hne. induction ds as [|d ds IH]; [reflexivity|].
  cbn [filter].
  destruct (Mongo.matches c d) eqn:Hc; cbn [negb].
  - rewrite IH.
    assert (Hc2 : Mongo.matches c2 d = false).
    { apply matches_false_iff. apply matches_iff in Hc. congruence. }
    rewrite Hc2. reflexivity.
  - cbn [filter]. rewrite IH. reflexivity.
Qed.

(** X10: over a reachable store, deleting one conversation leaves the
    history of every other conversation exactly as it was. *)
Theorem delete_leaves_other_conversations E c c2 limit w :
  no_faults E -> c2 <> c ->
  exists b w1,
    delete_conversation E c w = (Ok b, w1)
    /\ fst (get_conversation_history E c2 limit w1)
       = fst (get_conversation_history E c2 limit w).
Proof.
  intros Hnf Hne.
  destruct (delete_conversation_no_fault E c w Hnf) as [w1 [Hdel Hd]].
  destruct (get_conversation_history_no_fault E c2 limit w1 Hnf)
    as [w2 [H1 _]].
  destruct (get_conversation_history_no_fault E c2 limit w Hnf)
    as [w3 [H2 _]].
  eexists. exists w1. split; [exact Hdel|].
  rewrite H1, H2. cbn [fst]. unfold Mongo.find_sorted.
  rewrite Hd, (filter_matches_other c c2 _ Hne). reflexivity.
Qed.

Lemma delete_leaves_other_conversations_witness :
  exists b w1,
    delete_conversation Sample.env_ok "c1"
      (Sample.fresh [Sample.exchange "c1" "hi" "hello" 7;
                     Sample.exchange "c2" "x" "y" 8]) = (Ok b, w1)
    /\ fst (get_conversation_history Sample.env_ok "c2" 50 w1)
       = fst (get_conversation_history Sample.env_ok "c2" 50
                (Sample.fresh [Sample.exchange "c1" "hi" "hello" 7;
                               Sample.exchange "c2" "x" "y" 8])).
Proof.
  assert (Hnf : no_faults Sample.env_ok) by (intros n op; reflexivity).
  apply (delete_leaves_other_conversations Sample.env_ok "c1" "c2" 50 _ Hnf).
  discriminate.
Defined.

End ShapeFacts.

(* ------------------------------------------------------------------ *)
(** ** Summaries under failure, and the stamp of the exchanges *)

Section SummaryBounds.
Import Frame ChatService Reading.

(** Whatever fails, the list that [get_conversation_summaries] returns
    is empty or the loop run over the truncated pipeline. *)
Lemma get_conversation_summaries_inv E limit w l w' :
  get_conversation_summaries E limit w = (Ok l, w') ->
  l = []
  \/ l = summaries_loop
           (firstn (Z.to_nat limit) (Mongo.sorted_groups (docs w))).
Proof.
  rewrite get_conversation_summaries_handler.
  destruct w as [db cc ds tk dbs cs]. run_m. unfold Mongo.aggregate.
  destruct (limit <=? 0);
    destruct db, cc; cbn; repeat case_fault;
    destruct ds as [|d ds]; cbn; repeat case_fault;
    intro H; injection H as <- _; auto.
Qed.

Lemma summaries_loop_filter gs :
  summaries_loop gs
  = map summary_of_group
        (filter (fun g => negb (py_not (Mongo._id g))) gs).
Proof.
  unfold summaries_loop. induction gs as [|g gs IH]; [reflexivity|].
  cbn [flat_map filter]. rewrite IH.
  destruct (py_not (Mongo._id g)); reflexivity.
Qed.

Lemma StronglySorted_filter {A} (R : A -> A -> Prop) p l :
  StronglySorted R l -> StronglySorted R (filter p l).
Proof.
  induction 1 as [|x l Hl IH Hx]; cbn [filter]; [constructor|].
  destruct (p x); [|exact IH].
  constructor; [exact IH|].
  apply Forall_forall. intros y Hy. apply filter_In in Hy.
  rewrite Forall_forall in Hx. apply Hx. tauto.
Qed.

Lemma StronglySorted_map_groups gs :
  StronglySorted (fun a b => - Mongo.updated_at a <= - Mongo.updated_at b) gs ->
  StronglySorted newer_first (map summary_of_group gs).
Proof.
  induction 1 as [|g gs Hgs IH Hall]; cbn [map]; constructor; [exact IH|].
  apply Forall_forall. intros s Hs.
  apply in_map_iff in Hs. destruct Hs as [g' [<- Hg']].
  rewrite Forall_forall in Hall. specialize (Hall g' Hg').
  unfold newer_first, summary_of_group.
  cbn [ConversationSummary.updated_at]. lia.
Qed.

Lemma NoDup_map_filter {A B} (f : A -> B) p l :
  NoDup (map f l) -> NoDup (map f (filter p l)).
Proof.
  induction l as [|x l IH]; cbn [map filter]; intro H; [constructor|].
  inversion H as [|? ? Hx Hl]; subst.
  destruct (p x); [|exact (IH Hl)].
  cbn [map]. constructor; [|exact (IH Hl)].
  intro Hin. apply Hx. apply in_map_iff in Hin.
  destruct Hin as [y [Hy Hin]]. apply filter_In in Hin.
  rewrite <- Hy. apply in_map. tauto.
Qed.

Lemma NoDup_map_firstn {A B} (f : A -> B) n : forall l,
  NoDup (map f l) -> NoDup (map f (firstn n l)).
Proof.
  induction n as [|n IH]; intros l H; [constructor|].
  destruct l as [|x l]; [constructor|]. cbn [firstn map] in *.
  inversion H as [|? ? Hx Hl]; subst.
  constructor; [|exact (IH l Hl)].
  intro Hin. apply Hx. apply in_map_iff in Hin.
  destruct Hin as [y [Hy Hin]]. rewrite <- Hy.
  apply in_map. eapply firstn_In. exact Hin.
Qed.

(** X11: whatever fails on the way, the list that
    [get_conversation_summaries] returns is never wrong: it has at most
    [limit] entries, no conversation id twice and no empty id, it is
    sorted by [updated_at] descending, and each entry is the summary of
    its conversation in the collection at the time of the call. *)
Theorem summaries_are_never_wrong E limit w l w' :
  get_conversation_summaries E limit w = (Ok l, w') ->
  (List.length l <= Z.to_nat limit)%nat
  /\ NoDup (map ConversationSummary.conversation_id l)
  /\ StronglySorted newer_first l
  /\ forall s, In s l ->
       ConversationSummary.conversation_id s <> ""
       /\ summary_of (docs w) (ConversationSummary.conversation_id s) = Some s.
Proof.
  intro H. apply get_conversation_summaries_inv in H.
  destruct H as [-> | ->].
  { split; [cbn; lia|]. split; [constructor|]. split; [constructor|].
    intros s []. }
  rewrite summaries_loop_filter.
  set (gs := firstn (Z.to_nat limit) (Mongo.sorted_groups (docs w))).
  set (p := fun g => negb (py_not (Mongo._id g))).
  split.
  { rewrite length_map.
    pose proof (filter_length_le p gs) as H1.
    subst gs. rewrite length_firstn in H1. lia. }
  split.
  { rewrite map_map.
    change (fun x => ConversationSummary.conversation_id (summary_of_group x))
      with Mongo._id.
    apply NoDup_map_filter. subst gs. apply NoDup_map_firstn.
    apply sorted_groups_NoDup. }
  split.
  { apply StronglySorted_map_groups, StronglySorted_filter.
    subst gs. apply StronglySorted_firstn.
    unfold Mongo.sorted_groups. apply sort_by_ascending. }
  intros s Hs. apply in_map_iff in Hs. destruct Hs as [g [<- Hg]].
  apply filter_In in Hg. destruct Hg as [Hg Hp].
  subst gs. apply firstn_In in Hg.
  split.
  - subst p. cbv beta in Hp.
    cbn [summary_of_group ConversationSummary.conversation_id].
    destruct (Mongo._id g); [discriminate Hp | discriminate].
  - apply (sorted_groups_summary g _ Hg).
Qed.

Lemma summaries_are_never_wrong_witness :
  exists l w',
    get_conversation_summaries Sample.env_ok 1
      (Sample.fresh [Sample.exchange "a" "a1" "x" 1;
                     Sample.exchange "b" "b1" "y" 2]) = (Ok l, w')
    /\ (List.length l <= 1)%nat.
Proof.
  eexists. eexists. split; [reflexivity|].
  exact (proj1 (summaries_are_never_wrong Sample.env_ok 1
                  (Sample.fresh [Sample.exchange "a" "a1" "x" 1;
                                 Sample.exchange "b" "b1" "y" 2])
                  _ _ eq_refl)).
Defined.

End SummaryBounds.

Section StampFacts.
Import Frame ChatService Reading.

Lemma may_delete_after_keeps {A B} cid (m : M A) (k : A -> M B) :
  keeps_docs m -> (forall a, may_delete cid (k a)) -> may_delete cid (bind m k).
Proof.
  intros Hm Hk w. unfold bind. specialize (Hm w).
  destruct (m w) as [[a|e] w1]; cbn [snd] in Hm.
  - specialize (Hk a w1). rewrite Hm in Hk. exact Hk.
  - left. exact Hm.
Qed.

Lemma may_delete_delete_conversation E cid :
  may_delete cid (delete_conversation E cid).
Proof.
  unfold delete_conversation.
  apply may_delete_after_keeps; [apply keeps_get_database|]. intro db.
  apply may_delete_after_keeps;
    [destruct db; [apply keeps_ret | apply keeps_connect]|].
  intros _. apply may_delete_after_keeps; [apply keeps__get_collection|].
  intros _ w. unfold delete_many, bind, ext, get_docs, set_docs, ret.
  destruct (fault E (tick w) OpDelete); cbn [snd docs advance];
    [left | right]; reflexivity.
Qed.

Lemma send_message_docs E message cid chat_history w res w' :
  send_message E message cid chat_history w = (res, w') ->
  docs w' = docs w
  \/ exists d, docs w' = (docs w ++ [d])%list /\ stamped d.
Proof.
  unfold send_message. unfold bind at 1.
  pose proof (keeps_resolve_conversation_id E cid w) as Hk0.
  destruct (resolve_conversation_id E cid w) as [[c|e] w0];
    cbn [snd] in Hk0; [|intro H; injection H as _ <-; left; exact Hk0].
  unfold bind at 1.
  pose proof (keeps_generate_response E message (history_of chat_history) w0)
    as Hk1.
  destruct (generate_response E message (history_of chat_history) w0)
    as [[r|e] w1]; cbn [snd] in Hk1;
    [|intro H; injection H as _ <-; left; congruence].
  unfold bind at 1. unfold try_except.
  pose proof (writes__store_message E c message r w1) as Hst.
  destruct (_store_message E c message r w1) as [[[]|e] w2].
  - destruct Hst as [d [Hd [_ [_ [_ Hs]]]]].
    cbn. intro H. injection H as _ <-.
    right. exists d. cbn [docs advance]. split; [congruence | exact Hs].
  - destruct (connection_issue e); cbn; intro H; injection H as _ <-;
      left; cbn [docs advance]; congruence.
Qed.

(** X12: the services only ever write exchanges whose [created_at]
    equals their [timestamp] and whose [message_length] is the summed
    length of their texts, and they keep a collection of such exchanges
    that way: [_store_message], [send_message] and
    [delete_conversation] all preserve it, whatever fails.  Over such a
    collection every summary that [get_conversation_summaries] returns
    counts at least one exchange and has [created_at <= updated_at]. *)
Theorem stamped_store_is_kept E w :
  Forall stamped (docs w) ->
  (forall cid u a,
     Forall stamped (docs (snd (_store_message E cid u a w))))
  /\ (forall message cid chat_history,
        Forall stamped
               (docs (snd (send_message E message cid chat_history w))))
  /\ (forall cid, Forall stamped (docs (snd (delete_conversation E cid w))))
  /\ (forall limit l w',
        get_conversation_summaries E limit w = (Ok l, w') ->
        forall s, In s l ->
          (1 <= ConversationSummary.message_count s)%nat
          /\ exists c u,
               ConversationSummary.created_at s = Some c
               /\ ConversationSummary.updated_at s = Some u
               /\ c <= u).
Proof.
  intro Hst. split; [|split; [|split]].
  - intros cid u a. pose proof (writes__store_message E cid u a w) as H.
    destruct (_store_message E cid u a w) as [[[]|e] w']; cbn [snd].
    + destruct H as [d [-> [_ [_ [_ Hd]]]]].
      apply Forall_app. split; [exact Hst | constructor; [exact Hd|constructor]].
    + rewrite H. exact Hst.
  - intros message cid chat_history.
    destruct (send_message E message cid chat_history w) as [res w1] eqn:Hrun.
    cbn [snd].
    destruct (send_message_docs E message cid chat_history w _ _ Hrun)
      as [-> | [d [-> Hd]]]; [exact Hst|].
    apply Forall_app. split; [exact Hst | constructor; [exact Hd|constructor]].
  - intro cid. destruct (may_delete_delete_conversation E cid w) as [-> | ->];
      [exact Hst|].
    apply Forall_forall. intros d Hd. apply filter_In in Hd.
    rewrite Forall_forall in Hst. apply Hst. tauto.
  - intros limit l w' Hrun s Hs.
    assert (Hsum : summary_of (docs w) (ConversationSummary.conversation_id s)
                   = Some s).
    { apply get_conversation_summaries_inv in Hrun.
      destruct Hrun as [-> | ->]; [destruct Hs|].
      rewrite summaries_loop_filter in Hs.
      apply in_map_iff in Hs. destruct Hs as [g [<- Hg]].
      apply filter_In in Hg. destruct Hg as [Hg _]. apply firstn_In in Hg.
      apply (sorted_groups_summary g _ Hg). }
    destruct (summary_of_meaning _ _ _ Hsum)
      as [_ [Hcount [[d1 [Hd1 _]] [_ [[dc [Hdc [Hc _]]] [du [Hdu [Hu Hmax]]]]]]]].
    split.
    + rewrite Hcount. destruct (exchanges_of _ (docs w)); [destruct Hd1|].
      cbn [List.length]. lia.
    + exists (Doc.created_at dc), (Doc.timestamp du).
      split; [exact Hc|]. split; [exact Hu|].
      assert (Hsc : stamped dc).
      { rewrite Forall_forall in Hst. apply Hst.
        unfold exchanges_of in Hdc. apply filter_In in Hdc. tauto. }
      destruct Hsc as [-> _]. apply Hmax. exact Hdc.
Qed.

Lemma stamped_store_is_kept_witness :
  Forall stamped
         (docs (snd (send_message Sample.env_ok "hello" (Some "c1") None
                       (Sample.fresh [Sample.exchange "c1" "hi" "hello" 7])))).
Proof.
  apply (stamped_store_is_kept Sample.env_ok
           (Sample.fresh [Sample.exchange "c1" "hi" "hello" 7])).
  constructor; [split; reflexivity | constructor].
Defined.

End StampFacts.

(* ------------------------------------------------------------------ *)
(** ** The analysis as a whole *)

Section AnalysisFacts.
Import GapAnalysisService.

Lemma analyze_messages_fields cid msgs :
  conversation_id (analyze_messages cid msgs) = cid
  /\ status (analyze_messages cid msgs) = "analyzed"
  /\ gap_count (analyze_messages cid msgs)
     = Some (List.length (gaps (analyze_messages cid msgs)))
  /\ error (analyze_messages cid msgs) = None
  /\ exists m, metrics (analyze_messages cid msgs) = Some m
       /\ total_messages m = List.length msgs
       /\ metrics_completeness_score m
          = completeness_score (analyze_messages cid msgs).
Proof.
  unfold analyze_messages.
  destruct (run_rules _ _) as [gs sc]. cbn.
  repeat split. eexists. repeat split.
Qed.

(** X13: [analyze_conversation] never raises.  Its result has status
    "empty", "analyzed" or "error"; in the first and the last case it
    reports no gap and the score 0, and when the history cannot be read
    the result is the error analysis carrying the text of the
    exception; an analyzed result has a score between 30 and 100. *)
Theorem analyze_conversation_never_raises E cid w :
  exists a w',
    analyze_conversation E cid w = (Ok a, w')
    /\ conversation_id a = cid
    /\ (status a = "empty" \/ status a = "analyzed" \/ status a = "error")
    /\ (status a <> "analyzed" ->
        gaps a = [] /\ completeness_score a = 0 /\ metrics a = None)
    /\ (status a = "analyzed" -> 30 <= completeness_score a <= 100)
    /\ (forall e w1,
          ChatService.get_conversation_history E cid 50 w = (Raise e, w1) ->
          a = error_analysis cid e /\ w' = w1).
Proof.
  unfold analyze_conversation, try_except, bind.
  destruct (ChatService.get_conversation_history E cid 50 w)
    as [[h|e] w1].
  - destruct (ConversationHistory.messages h) as [|m msgs] eqn:Hm.
    + exists (empty_analysis cid), w1. cbn.
      repeat split; auto; try discriminate; intros; discriminate.
    + exists (analyze_messages cid (m :: msgs)), w1.
      destruct (analyze_messages_fields cid (m :: msgs))
        as [Hc [Hs _]].
      split; [reflexivity|]. split; [exact Hc|].
      split; [right; left; exact Hs|].
      split; [intro Hn; congruence|].
      split; [|intros e w2 H; discriminate H].
      intros _. rewrite analyze_messages_score.
      pose proof (run_rules_score_bounds (with_role "user" (m :: msgs))
                    (with_role "assistant" (m :: msgs))). lia.
  - exists (error_analysis cid e), w1. cbn.
    repeat split; auto; try discriminate; intros; try discriminate;
      congruence.
Qed.

(** The gaps, rule by rule. *)
Lemma run_rules_gaps u a :
  fst (run_rules u a)
  = ((if cond1 u then [missing_context] else [])
     ++ (if cond2 u a then [no_followup] else [])
     ++ (if cond3 a then [short_responses] else [])
     ++ (if cond4 u then [missing_details] else [])
     ++ (if cond5 u then [no_action_items] else [])
     ++ (if cond6 u a then [unanswered_questions] else []))%list.
Proof.
  unfold run_rules, rules_1_to_5, gap1, gap2, gap3, gap4, gap5, gap6, trigger.
  destruct (cond1 u), (cond2 u a), (cond3 a), (cond4 u), (cond5 u),
    (cond6 u a); reflexivity.
Qed.

(** Which rules exclude which. *)
Lemma rules_exclusion u a :
  (cond1 u = true -> cond4 u = false /\ cond5 u = false)
  /\ (cond2 u a = true -> cond1 u = true).
Proof.
  unfold cond1, cond2, cond4, cond5. split.
  - intro H. apply Nat.ltb_lt in H.
    assert (H2 : (2 <? List.length u)%nat = false) by (apply Nat.ltb_ge; lia).
    assert (H3 : (3 <? List.length u)%nat = false) by (apply Nat.ltb_ge; lia).
    rewrite H2, H3, !andb_false_r. auto.
  - intro H. apply andb_true_iff in H. destruct H as [H _].
    apply Nat.eqb_eq in H. apply Nat.ltb_lt. lia.
Qed.

(** X14: in an analysis, [gap_count] is the number of gaps and the
    counts of high, medium and low severity add up to it; every rule is
    reported at most once and never more than four of the six together;
    there is always at least one suggestion, and with gaps there is one
    suggestion per gap. *)
Theorem analysis_counts_are_consistent cid msgs :
  let a := analyze_messages cid msgs in
  gap_count a = Some (List.length (gaps a))
  /\ (exists sb, severity_breakdown a = Some sb
        /\ (high sb + medium sb + low sb)%nat = List.length (gaps a))
  /\ NoDup (map Gap.type (gaps a))
  /\ (List.length (gaps a) <= 4)%nat
  /\ suggestions a <> []
  /\ (gaps a <> [] -> suggestions a = map Gap.suggestion (gaps a)).
Proof.
  cbv zeta.
  pose proof (analyze_messages_gaps cid msgs) as Hg.
  set (u := with_role "user" msgs) in *.
  set (am := with_role "assistant" msgs) in *.
  assert (Hshape :
    gap_count (analyze_messages cid msgs)
    = Some (List.length (gaps (analyze_messages cid msgs)))
    /\ severity_breakdown (analyze_messages cid msgs)
       = Some (mkSeverityBreakdown
                 (count_severity "high" (gaps (analyze_messages cid msgs)))
                 (count_severity "medium" (gaps (analyze_messages cid msgs)))
                 (count_severity "low" (gaps (analyze_messages cid msgs))))
    /\ (gaps (analyze_messages cid msgs) = [] ->
        suggestions (analyze_messages cid msgs) <> [])
    /\ (gaps (analyze_messages cid msgs) <> [] ->
        suggestions (analyze_messages cid msgs)
        = map Gap.suggestion (gaps (analyze_messages cid msgs)))).
  { unfold analyze_messages. fold u am.
    destruct (run_rules u am) as [gs sc]. cbn.
    split; [reflexivity|]. split; [reflexivity|].
    destruct gs; split; intro H; try congruence; try discriminate;
      reflexivity. }
  destruct Hshape as [Hcount [Hsb [Hsug0 Hsug]]].
  rewrite Hsb, Hcount.
  assert (Hne : forall gs, gaps (analyze_messages cid msgs) = gs ->
                suggestions (analyze_messages cid msgs) <> []).
  { intros [|g gs] Hgs; [apply Hsug0; exact Hgs|].
    rewrite Hsug by congruence. rewrite Hgs. discriminate. }
  specialize (Hne _ eq_refl).
  split; [reflexivity|].
  split; [eexists; split; [reflexivity|]|].
  - cbn [high medium low]. rewrite Hg, run_rules_gaps.
    destruct (cond1 u), (cond2 u am), (cond3 am), (cond4 u), (cond5 u),
      (cond6 u am); reflexivity.
  - split; [|split; [|split; [exact Hne | exact Hsug]]];
      rewrite Hg, run_rules_gaps;
      destruct (rules_exclusion u am) as [Hx1 Hx2].
    + destruct (cond1 u), (cond2 u am), (cond3 am), (cond4 u), (cond5 u),
        (cond6 u am); cbn; repeat constructor; cbn; intuition discriminate.
    + destruct (cond1 u) eqn:H1.
      * destruct (Hx1 eq_refl) as [-> ->].
        destruct (cond2 u am), (cond3 am), (cond6 u am); cbn; lia.
      * destruct (cond2 u am) eqn:H2;
          [specialize (Hx2 eq_refl); discriminate|].
        destruct (cond3 am), (cond4 u), (cond5 u), (cond6 u am); cbn; lia.
Qed.

End AnalysisFacts.

(* ------------------------------------------------------------------ *)
(** ** [POST /chat] and the connection *)

Section RouteFacts.
Import ChatService.




(** X16: [connect] is idempotent and its outcome decides
    [get_collection].  When the database is already there, [connect]
    returns at once and calls nothing outside.  After a [connect] that
    returned, the database is there, a further [connect] changes
    nothing, and [get_collection] succeeds; after a [connect] that
    raised, the database is still missing and [get_collection] raises
    "Database not connected". *)
Theorem connect_is_idempotent E w :
  (database w = true -> DatabaseService.connect E w = (Ok tt, w))
  /\ match DatabaseService.connect E w with
     | (Ok _, w1) =>
         database w1 = true
         /\ DatabaseService.connect E w1 = (Ok tt, w1)
         /\ DatabaseService.get_collection "conversations" w1 = (Ok tt, w1)
     | (Raise e, w1) =>
         database w = false /\ database w1 = false
         /\ fault E (tick w) OpConnect = Some e
         /\ DatabaseService.get_collection "conversations" w1
            = (Raise "Database not connected", w1)
     end.
Proof.
  destruct w as [db cc ds tk dbs cs].
  unfold DatabaseService.connect, DatabaseService.get_collection.
  unfold bind, ext, set_database, ret, raise, advance.
  cbn [database conversations_collection docs tick db_service chat_service].
  destruct db.
  - split; [reflexivity|]. cbn. auto.
  - split; [discriminate|].
    destruct (fault E tk OpConnect); cbn; auto.
Qed.

End RouteFacts.

(* ------------------------------------------------------------------ *)
(** ** The analysis of all conversations *)

Section OverallFacts.
Import GapAnalysisService GapAnalysisAll.








End OverallFacts.
